(** * feed2context: the trigger pipeline and the report store of [app2.py]

    A shallow embedding of [src/app2.py] and the properties of its
    specification.

    Python strings are modelled by [string]; a character is a code point
    below 256, so the model covers Latin-1 text, which includes every ASCII
    URL.  The report file is a sequence of bytes, read and written through
    the UTF-8 codec.  The completion service, the browser automation agent,
    the JSON and UTF-8 codecs of the Python library and the clock are
    collaborators outside the repository: they enter as an environment of
    outcomes (a call returns or raises) and as codecs taken as a parameter. *)

From Stdlib Require Import String Ascii Strings.Byte List Bool Arith ZArith Lia DecimalString.
Import ListNotations.
Open Scope string_scope.
Open Scope nat_scope.
Set Warnings "-register-all".

(** ** Python string operations *)

Module PyStr.

(** [str.lower] on one code point below 256: A-Z, and the Latin-1 capitals
    0xC0-0xDE except the multiplication sign 0xD7, move up by 32. *)
Definition lower_char (c : ascii) : ascii :=
  let n := nat_of_ascii c in
  if ((65 <=? n) && (n <=? 90))
     || ((192 <=? n) && (n <=? 222) && negb (n =? 215))
  then ascii_of_nat (n + 32) else c.

Fixpoint lower (s : string) : string :=
  match s with
  | EmptyString => EmptyString
  | String c s' => String (lower_char c) (lower s')
  end.

(** [needle in hay]: the needle starts at some position of the haystack. *)
Fixpoint contains (needle hay : string) : bool :=
  prefix needle hay ||
  match hay with
  | EmptyString => false
  | String _ hay' => contains needle hay'
  end.

(** [str.isspace] on one code point below 256. *)
Definition is_space (c : ascii) : bool :=
  let n := nat_of_ascii c in
  ((9 <=? n) && (n <=? 13)) || ((28 <=? n) && (n <=? 32))
  || (n =? 133) || (n =? 160).

Fixpoint lstrip (s : string) : string :=
  match s with
  | EmptyString => EmptyString
  | String c s' => if is_space c then lstrip s' else s
  end.

(** Drops the trailing white space: a character is kept when it is not a
    space or when something is kept after it. *)
Fixpoint rstrip (s : string) : string :=
  match s with
  | EmptyString => EmptyString
  | String c s' =>
      match rstrip s' with
      | EmptyString => if is_space c then EmptyString else String c EmptyString
      | r => String c r
      end
  end.

(** [s.strip()] *)
Definition strip (s : string) : string := rstrip (lstrip s).

(** Truthiness of a string: [if s:] holds for the non-empty ones. *)
Definition nonempty (s : string) : bool :=
  match s with EmptyString => false | _ => true end.

(** [s.startswith(p)] *)
Definition startswith (p s : string) : bool := prefix p s.

End PyStr.

(** ** Source classifier *)

(** [_detect_source] (lines 325-331); [url or ''] is the identity on a
    string. *)
Definition _detect_source (url : string) : string :=
  let u := PyStr.lower url in
  if PyStr.contains "linkedin.com" u then "linkedin"
  else if PyStr.contains "x.com" u || PyStr.contains "twitter.com" u then "x"
  else "unknown".

(** ** JSON values and the codec *)

(** What [json.loads] can return and [json.dumps] can take: [None], a
    [bool], an [int], a [float] (kept as its literal text), a [str], a
    [list] and a [dict] with string keys, in insertion order. *)
Inductive json : Type :=
| JNull
| JBool (b : bool)
| JInt (z : Z)
| JFloat (literal : string)
| JStr (s : string)
| JArr (items : list json)
| JObj (fields : list (string * json)).

(** The codecs of the Python library.

    The [json] module: [json_loads s] is [None] when [json.loads(s)] raises;
    [json_dumps] is [json.dumps(_, ensure_ascii=False)].

    The UTF-8 codec behind [open(path, _, encoding='utf-8')]:
    [utf8_encode] gives the bytes written for a text; [utf8_decode] gives
    the text read from the bytes of a file, and [None] when they are not
    UTF-8 and the read raises [UnicodeDecodeError].  Its laws: a text is
    written character by character; a line break is the byte 0x0A; the
    empty file is the empty text; what was written is read back; bytes written
    after a text are read after it; and bytes that are not UTF-8 stay so
    when a text is written after them, since the bytes of a text never
    start in the middle of a character. *)
Class Codecs : Type := {
  json_loads : string -> option json;
  json_dumps : json -> string;
  utf8_encode : string -> list byte;
  utf8_decode : list byte -> option string;
  utf8_encode_app : forall a b,
      utf8_encode (a ++ b)%string = (utf8_encode a ++ utf8_encode b)%list;
  utf8_encode_newline : utf8_encode (String (ascii_of_nat 10) EmptyString) = [x0a];
  utf8_decode_nil : utf8_decode [] = Some EmptyString;
  utf8_decode_encode : forall t, utf8_decode (utf8_encode t) = Some t;
  utf8_decode_app : forall bytes text t,
      utf8_decode bytes = Some text ->
      utf8_decode (bytes ++ utf8_encode t) = Some (text ++ t)%string;
  utf8_decode_app_error : forall bytes t,
      utf8_decode bytes = None ->
      utf8_decode (bytes ++ utf8_encode t) = None
}.

(** [d.get(key)] on the fields of a [dict]: [None] when the key is absent. *)
Fixpoint dict_get (key : string) (fields : list (string * json)) : option json :=
  match fields with
  | [] => None
  | (k, v) :: rest => if String.eqb k key then Some v else dict_get key rest
  end.

(** [isinstance(data, dict) and isinstance(data.get(key), str)], giving
    [data[key]] when it holds. *)
Definition str_field (key : string) (data : json) : option string :=
  match data with
  | JObj fields =>
      match dict_get key fields with
      | Some (JStr s) => Some s
      | _ => None
      end
  | _ => None
  end.

(** ** Outcomes of calls that may raise *)

Inductive outcome (A : Type) : Type :=
| Returned (a : A)
| Raised.
Arguments Returned {A} a.
Arguments Raised {A}.

Definition bind {A B : Type} (m : outcome A) (k : A -> outcome B) : outcome B :=
  match m with
  | Returned a => k a
  | Raised => Raised
  end.

Notation "x <- m ;; k" := (bind m (fun x => k))
  (at level 61, m at next level, right associativity).
Notation "m ;;; k" := (bind m (fun _ => k))
  (at level 61, right associativity).

(** ** Report store *)

Module Store.

Definition LF : ascii := ascii_of_nat 10.
Definition CR : ascii := ascii_of_nat 13.
Definition newline : string := String LF EmptyString.

(** The report file [./data/reports.jsonl]: its bytes, or [None] while it
    does not exist. *)
Definition file : Type := option (list byte).

(** The bytes already in the file. *)
Definition file_bytes (f : file) : list byte :=
  match f with
  | None => []
  | Some bytes => bytes
  end.

(** Iteration over a file opened in text mode: the lines with their
    terminator, where a line break, a carriage return and the pair of both
    each end a line and are read as one line break. *)
Fixpoint readlines (s : string) : list string :=
  match s with
  | EmptyString => []
  | String c s' =>
      if Ascii.eqb c LF then newline :: readlines s'
      else if Ascii.eqb c CR then
        match s' with
        | String c' s'' =>
            if Ascii.eqb c' LF then newline :: readlines s''
            else newline :: readlines s'
        | EmptyString => [newline]
        end
      else
        match readlines s' with
        | [] => [String c EmptyString]
        | l :: ls => String c l :: ls
        end
  end.

(** [items[:limit]]: a negative limit counts from the end. *)
Definition slice_to {A : Type} (limit : Z) (items : list A) : list A :=
  if (0 <=? limit)%Z then firstn (Z.to_nat limit) items
  else firstn (length items - Z.to_nat (- limit)) items.

Section WithCodec.
Context {codec : Codecs}.

(** [_append_jsonl] (lines 32-35): one serialised line at the end of the
    file, which is created when absent. *)
Definition _append_jsonl (f : file) (data : json) : file :=
  let line := (json_dumps data ++ newline)%string in
  Some (file_bytes f ++ utf8_encode line)%list.

(** The loop of [_read_reports] (lines 339-346) over the lines still to be
    read, [items] being the list built so far. *)
Fixpoint read_loop (items : list json) (lines : list string) : list json :=
  match lines with
  | [] => items
  | line :: rest =>
      let line := PyStr.strip line in
      if negb (PyStr.nonempty line) then read_loop items rest
      else
        match json_loads line with
        | Some v => read_loop (items ++ [v]) rest
        | None => read_loop items rest
        end
  end.

(** [_read_reports] (lines 334-350).  A file that does not exist gives the
    empty list; bytes that are not UTF-8 make the iteration over the file
    raise, which no handler of the function catches. *)
Definition _read_reports (f : file) (limit : Z) : outcome (list json) :=
  match f with
  | None => Returned []
  | Some bytes =>
      match utf8_decode bytes with
      | None => Raised
      | Some text => Returned (slice_to limit (rev (read_loop [] (readlines text))))
      end
  end.

(** The default of the [limit] argument. *)
Definition _read_reports_default (f : file) : outcome (list json) := _read_reports f 100.

(** [api_reports] (lines 443-445), the handler of [GET /reports]. *)
Definition api_reports (f : file) : outcome (list json) := _read_reports f 200.

End WithCodec.
End Store.

(** ** Regular expressions of the extractor

    The two patterns of lines 225 and 233 use literals, a lazy [.*?] (with
    [re.DOTALL]), a greedy [[^']+] and one capturing group.  The matcher
    is the usual backtracking one: alternatives are tried in priority order
    and the continuation decides whether the rest of the pattern matches. *)

Module Regex.

Inductive cclass : Type :=
| AnyChar                      (* [.] under [re.DOTALL] *)
| NotChar (c : ascii).         (* [[^c]] *)

Inductive regex : Type :=
| Lit (s : string)
| LazyStar (cc : cclass)
| GreedyPlus (cc : cclass)
| Seq (r1 r2 : regex)
| Group (r : regex).

Definition cc_match (cc : cclass) (c : ascii) : bool :=
  match cc with
  | AnyChar => true
  | NotChar x => negb (Ascii.eqb c x)
  end.

(** The rest of [s] after the literal [l], when [s] starts with it. *)
Fixpoint skip_lit (l s : string) : option string :=
  match l with
  | EmptyString => Some s
  | String a l' =>
      match s with
      | String b s' => if Ascii.eqb a b then skip_lit l' s' else None
      | EmptyString => None
      end
  end.

(** The first [n] characters of [s]. *)
Fixpoint take (n : nat) (s : string) : string :=
  match n, s with
  | S n', String c s' => String c (take n' s')
  | _, _ => EmptyString
  end.

Section Match.
Context {R : Type}.

(** [cc*?]: the shortest repetition first. *)
Fixpoint lazy_star (cc : cclass) (k : string -> option R) (s : string) : option R :=
  match k s with
  | Some r => Some r
  | None =>
      match s with
      | String c s' => if cc_match cc c then lazy_star cc k s' else None
      | EmptyString => None
      end
  end.

(** [cc*]: the longest repetition first. *)
Fixpoint greedy_star (cc : cclass) (k : string -> option R) (s : string) : option R :=
  match s with
  | String c s' =>
      if cc_match cc c then
        match greedy_star cc k s' with
        | Some r => Some r
        | None => k s
        end
      else k s
  | EmptyString => k s
  end.

(** [cc+] *)
Definition greedy_plus (cc : cclass) (k : string -> option R) (s : string) : option R :=
  match s with
  | String c s' => if cc_match cc c then greedy_star cc k s' else None
  | EmptyString => None
  end.

(** [run r k s cap]: match [r] at the start of [s], [cap] being group 1 so
    far, and hand the rest of the subject and the group to [k]. *)
Fixpoint run (r : regex) (k : string -> option string -> option R)
         (s : string) (cap : option string) : option R :=
  match r with
  | Lit l =>
      match skip_lit l s with
      | Some s' => k s' cap
      | None => None
      end
  | LazyStar cc => lazy_star cc (fun s' => k s' cap) s
  | GreedyPlus cc => greedy_plus cc (fun s' => k s' cap) s
  | Seq r1 r2 => run r1 (fun s' cap' => run r2 k s' cap') s cap
  | Group r1 =>
      run r1 (fun s' _ => k s' (Some (take (String.length s - String.length s') s))) s cap
  end.

End Match.

(** A match of [r] at the start of [s]: group 1 and the rest of [s]. *)
Definition match_here (r : regex) (s : string) : option (string * string) :=
  run r (fun s' cap => Some (match cap with Some g => g | None => EmptyString end, s')) s None.

(** [re.search(r, s)]: the leftmost match; its group 1. *)
Fixpoint search (r : regex) (s : string) : option string :=
  match match_here r s with
  | Some (g, _) => Some g
  | None =>
      match s with
      | String _ s' => search r s'
      | EmptyString => None
      end
  end.

(** [re.findall(r, s)] for a pattern with one group that matches no empty
    string: group 1 of the successive matches from left to right, each
    search resuming where the previous match ended.  [skip] counts the
    characters of the previous match still to be passed. *)
Fixpoint findall_from (r : regex) (skip : nat) (s : string) : list string :=
  match skip with
  | S n =>
      match s with
      | String _ s' => findall_from r n s'
      | EmptyString => []
      end
  | O =>
      match match_here r s with
      | Some (g, rest) =>
          g :: match s with
               | String _ s' =>
                   findall_from r (String.length s - String.length rest - 1) s'
               | EmptyString => []
               end
      | None =>
          match s with
          | String _ s' => findall_from r 0 s'
          | EmptyString => []
          end
      end
  end.

Definition findall (r : regex) (s : string) : list string := findall_from r 0 s.

Definition quote : ascii := ascii_of_nat 39.

(** The group [([^']+)] between two quotes, after [extracted_content=]. *)
Definition quoted_group : regex :=
  Seq (Lit ("extracted_content=" ++ String quote EmptyString))
      (Seq (Group (GreedyPlus (NotChar quote))) (Lit (String quote EmptyString))).

(** Line 225: [ActionResult\(is_done=True.*?extracted_content='([^']+)'.*?\)] *)
Definition pattern : regex :=
  Seq (Lit "ActionResult(is_done=True")
      (Seq (LazyStar AnyChar)
           (Seq quoted_group (Seq (LazyStar AnyChar) (Lit ")")))).

(** Line 233: [extracted_content='([^']+)'] *)
Definition pattern2 : regex := quoted_group.

End Regex.

(** ** Python values seen by the X extractor

    The result of [agent.run()] has no fixed shape, and the extractor only
    observes it through [hasattr], [getattr], [callable], a call,
    iteration, [len], truth, [isinstance(_, str)] and [str].  An object is
    described by the outcome of each of these; a property that raises
    something other than [AttributeError] is an attribute whose outcome
    is [Raised]. *)

Inductive pyval : Type :=
| VNone
| VBool (b : bool)
| VInt (z : Z)
| VStr (s : string)
| VList (items : list pyval)
| VObj (o : pyobj)
with pyobj : Type :=
| Obj (attrs : list (string * outcome pyval))   (* attributes, by name *)
      (call : option (outcome pyval))           (* the result of calling it, when callable *)
      (iter : option (list pyval))              (* its items, when iteration succeeds *)
      (str : outcome string).                   (* [str(o)], also its [repr] *)

Module Py.

Definition attrs_of (v : pyval) : list (string * outcome pyval) :=
  match v with
  | VObj (Obj attrs _ _ _) => attrs
  | _ => []     (* none of the names the extractor probes exists on a built-in value *)
  end.

(** The attribute [name]: absent, raising or a value. *)
Fixpoint lookup (name : string) (attrs : list (string * outcome pyval))
  : option (outcome pyval) :=
  match attrs with
  | [] => None
  | (n, a) :: rest => if String.eqb n name then Some a else lookup name rest
  end.

(** [hasattr(v, name)] *)
Definition hasattr (v : pyval) (name : string) : outcome bool :=
  match lookup name (attrs_of v) with
  | None => Returned false
  | Some (Returned _) => Returned true
  | Some Raised => Raised
  end.

(** [getattr(v, name, default)] *)
Definition getattr (v : pyval) (name : string) (default : pyval) : outcome pyval :=
  match lookup name (attrs_of v) with
  | None => Returned default
  | Some a => a
  end.

(** [callable(v)] and [v()] *)
Definition call_of (v : pyval) : option (outcome pyval) :=
  match v with
  | VObj (Obj _ call _ _) => call
  | _ => None
  end.

(** Truth of a value; an object without [__bool__] and [__len__] is true. *)
Definition truthy (v : pyval) : bool :=
  match v with
  | VNone => false
  | VBool b => b
  | VInt z => negb (z =? 0)%Z
  | VStr s => PyStr.nonempty s
  | VList items => match items with [] => false | _ => true end
  | VObj _ => true
  end.

(** [len(v)] *)
Definition len (v : pyval) : outcome nat :=
  match v with
  | VStr s => Returned (String.length s)
  | VList items => Returned (List.length items)
  | _ => Raised
  end.

Fixpoint chars (s : string) : list pyval :=
  match s with
  | EmptyString => []
  | String c s' => VStr (String c EmptyString) :: chars s'
  end.

(** [list(v)], and the items a [for] loop over [v] visits. *)
Definition iterate (v : pyval) : outcome (list pyval) :=
  match v with
  | VStr s => Returned (chars s)
  | VList items => Returned items
  | VObj (Obj _ _ (Some items) _) => Returned items
  | _ => Raised
  end.

(** Formatting [v] in an f-string raises when [str] of an object in it does. *)
Fixpoint format_ok (v : pyval) : bool :=
  match v with
  | VList items => forallb format_ok items
  | VObj (Obj _ _ _ (Raised)) => false
  | _ => true
  end.

(** [print(f"...{v}")] *)
Definition print_value (v : pyval) : outcome unit :=
  if format_ok v then Returned tt else Raised.

(** [str(o)] *)
Definition str (o : pyobj) : outcome string :=
  match o with Obj _ _ _ s => s end.

(** [isinstance(v, str) and v.strip()], giving [v.strip()] when it holds. *)
Definition stripped_text (v : pyval) : option string :=
  match v with
  | VStr s => if PyStr.nonempty (PyStr.strip s) then Some (PyStr.strip s) else None
  | _ => None
  end.

End Py.

(** ** The X post extractor on a result of the agent *)

Module XExtractor.

(** A strategy returns the text it found, finds nothing, or raises. *)
Definition strategy : Type := outcome (option string).

(** Go on with [next] when [m] found nothing. *)
Definition or_else (m next : strategy) : strategy :=
  r <- m ;;
  match r with
  | Some s => Returned (Some s)
  | None => next
  end.

(** Method 1 (lines 143-157): the [final_result] method or attribute. *)
Definition method1 (result : pyobj) : strategy :=
  has <- Py.hasattr (VObj result) "final_result" ;;
  if has then
    final <- Py.getattr (VObj result) "final_result" VNone ;;
    match Py.call_of final with
    | Some called =>
        (* the call and the print are inside a [try] that goes on *)
        match called with
        | Returned final_value =>
            if Py.format_ok final_value
            then Returned (Py.stripped_text final_value)
            else Returned None
        | Raised => Returned None
        end
    | None =>
        Py.print_value final ;;;
        Returned (Py.stripped_text final)
    end
  else Returned None.

(** [getattr(v, 'all_results', []) or []], followed by the print of its
    length (lines 171-172 and 178-179). *)
Definition all_results_attr (v : pyval) : outcome pyval :=
  a <- Py.getattr v "all_results" (VList []) ;;
  let a := if Py.truthy a then a else VList [] in
  Py.len a ;;;
  Returned a.

(** Method 2, gathering the sub-results (lines 160-181). *)
Definition gather (result : pyobj) : outcome pyval :=
  let all_results :=
    match Py.iterate (VObj result) with
    | Returned items => VList items
    | Raised => VList []
    end in
  all_results <-
    (if negb (Py.truthy all_results) then all_results_attr (VObj result)
     else Returned all_results) ;;
  all_results <-
    (if negb (Py.truthy all_results) then
       history <- Py.getattr (VObj result) "history" VNone ;;
       if Py.truthy history then all_results_attr history
       else Returned all_results
     else Returned all_results) ;;
  Py.len all_results ;;;
  Returned all_results.

Definition done_fields : list string :=
  ["extracted_content"; "content"; "text"; "result"; "output"].

(** The loop over the field names (lines 192-196). *)
Fixpoint probe_fields (action_result : pyval) (fields : list string) : strategy :=
  match fields with
  | [] => Returned None
  | field :: rest =>
      value <- Py.getattr action_result field VNone ;;
      match (if Py.truthy value then Py.stripped_text value else None) with
      | Some s => Returned (Some s)
      | None => probe_fields action_result rest
      end
  end.

(** The loop over the sub-results looking for the done flag (lines 183-196). *)
Fixpoint scan_done (items : list pyval) : strategy :=
  match items with
  | [] => Returned None
  | action_result :: rest =>
      shown <- Py.getattr action_result "is_done" VNone ;;
      Py.print_value shown ;;;
      is_done <- Py.getattr action_result "is_done" (VBool false) ;;
      or_else (if Py.truthy is_done then probe_fields action_result done_fields
               else Returned None)
              (scan_done rest)
  end.

(** Method 3 (lines 199-203): [extracted_content] on the result itself. *)
Definition method3 (result : pyobj) : strategy :=
  has <- Py.hasattr (VObj result) "extracted_content" ;;
  if has then
    content <- Py.getattr (VObj result) "extracted_content" VNone ;;
    Returned (Py.stripped_text content)
  else Returned None.

(** The loop of method 4 (lines 206-210): the stripped, non-empty
    [extracted_content] of the sub-results, in order. *)
Fixpoint extracted_texts (items : list pyval) : outcome (list string) :=
  match items with
  | [] => Returned []
  | r :: rest =>
      extracted <- Py.getattr r "extracted_content" VNone ;;
      texts <- extracted_texts rest ;;
      Returned (match Py.stripped_text extracted with
                | Some s => s :: texts
                | None => texts
                end)
  end.

(** Method 4 (lines 206-216): the last of them. *)
Definition method4 (items : list pyval) : strategy :=
  texts <- extracted_texts items ;;
  Returned (match texts with
            | [] => None
            | _ => Some (last texts EmptyString)
            end).

(** Method 5 (lines 219-240): the string form of the result. *)
Definition method5 (result : pyobj) : strategy :=
  result_str <- Py.str result ;;
  if PyStr.contains "extracted_content" result_str then
    match Regex.search Regex.pattern result_str with
    | Some g => Returned (Some (PyStr.strip g))
    | None =>
        match Regex.findall Regex.pattern2 result_str with
        | [] => Returned None
        | matches =>
            let content := PyStr.strip (last matches EmptyString) in
            if PyStr.nonempty content
               && negb (String.eqb content "Waited for")
               && negb (PyStr.startswith "Waited for" content)
            then Returned (Some content)
            else Returned None
        end
    end
  else Returned None.

(** Lines 133-243: everything after [agent.run()] has returned [result]. *)
Definition from_result (result : pyobj) : strategy :=
  Py.str result ;;;                       (* the print of line 134 *)
  or_else (method1 result)
    (all_results <- gather result ;;
     items <- Py.iterate all_results ;;
     or_else (scan_done items)
       (or_else (method3 result)
          (or_else (method4 items)
             (method5 result)))).

(** The [except Exception] of lines 245-249 turns a raise into [None]. *)
Definition recover (s : strategy) : option string :=
  match s with
  | Returned r => r
  | Raised => None
  end.

End XExtractor.

(** ** The collaborators *)

(** A request to [client.chat.completions.create].  The sampling
    parameters are constants of each call site and are left out. *)
Record chat_request : Type := {
  model : string;
  messages : list (string * string);     (* role and content *)
  stream : bool
}.

(** One choice of a completion or of a streamed chunk: the [content] of
    its message or delta, [None] when it is missing or [None]. *)
Definition choice : Type := option string.

(** What a request gives: the choices of the completion when it is not
    streamed; when it is, the chunks in order, [Raised] where the iteration
    raises. *)
Inductive chat_response : Type :=
| Completion (choices : list choice)
| Chunks (chunks : list (outcome (list choice))).

Record Env : Type := {
  GROQ_API_KEY : option string;                      (* [os.getenv('GROQ_API_KEY')] *)
  chat_create : chat_request -> outcome chat_response;
  agent_run : string -> outcome pyobj;               (* the agent built for a task, then [run()] *)
  utcnow_isoformat : string                          (* [datetime.utcnow().isoformat()] *)
}.

(** The calls made to the collaborators, the latest last. *)
Inductive api_call : Type :=
| ChatCall (req : chat_request)
| AgentCall (task : string).

Record World : Type := {
  reports : Store.file;
  calls : list api_call
}.

(** Computations that read and change the world. *)
Definition M (A : Type) : Type := World -> A * World.

Definition ret {A : Type} (a : A) : M A := fun w => (a, w).

Definition mbind {A B : Type} (m : M A) (k : A -> M B) : M B :=
  fun w => let (a, w') := m w in k a w'.

Notation "'let*' x ':=' m 'in' k" := (mbind m (fun x => k))
  (at level 10, x name, m at level 100, k at level 200).

Definition log_call (c : api_call) : M unit :=
  fun w => (tt, {| reports := reports w; calls := (calls w ++ [c])%list |}).

(** The double quote, which the prompts contain. *)
Definition dq : string := String (ascii_of_nat 34) EmptyString.

(** [EXTRACTOR_SYSTEM] (lines 50-57) *)
Definition EXTRACTOR_SYSTEM : string :=
  "You are PostExtractor. Visit the given social post URL (LinkedIn or X) and return ONLY the main post text.
Input: The user will provide a URL directly.
Rules:
- Return ONLY JSON: {" ++ dq ++ "post_text" ++ dq ++ ": " ++ dq ++ "..." ++ dq ++ "}
- Exclude reactions, counts, and comments; include text from 'see more' / collapsed content if applicable
- If the page is not directly accessible, infer the gist from any preview/snippet and user-visible text
- No markdown, no extra text
".

(** [QUERY_BUILDER_SYSTEM] (lines 253-263) *)
Definition QUERY_BUILDER_SYSTEM : string :=
  "You are QueryBuilder. Build one detailed but concise research query from the extracted post text and user note.
Inputs:
- post_text: extracted social post text (LinkedIn or X)
- user_note: user's intent
Process:
- Identify entities and intent from post_text and user_note
- Compose a single concise research query (<= 50 words)
Output:
Return ONLY JSON: {" ++ dq ++ "query" ++ dq ++ ": " ++ dq ++ "..." ++ dq ++ "}
No markdown or extra text.
".

(** The task given to the agent (lines 105-120). *)
Definition task (post_url : string) : string :=
  "
        Navigate to this X/Twitter post: " ++ post_url ++ "
        
        Extract the following information:
        1. The author's name (display name, not @username)
        2. The main tweet text (the actual post content)
        
        Format the output as:
        Author: [Author Name]
        Tweet: [Tweet Text]
        
        Do not include timestamps, likes, retweets, or any other metadata.
        If the tweet has images or videos, briefly describe what they show.
        
        Return the extracted information in the format specified above.
        ".

Section Pipeline.
Context {codec : Codecs}.
Variable env : Env.

(** [os.getenv('GROQ_API_KEY')] is set and not empty. *)
Definition key_present : bool :=
  match GROQ_API_KEY env with
  | Some key => PyStr.nonempty key
  | None => false
  end.

(** [_groq] (lines 41-46): whether a client is returned; building the
    client does not raise. *)
Definition _groq : bool := key_present.

(** [client.chat.completions.create(...)] *)
Definition create (req : chat_request) : M (outcome chat_response) :=
  let* _ := log_call (ChatCall req) in
  ret (chat_create env req).

(** [(resp.choices[0].message.content or '').strip()] of a completion;
    an empty list of choices raises. *)
Definition first_content (resp : chat_response) : outcome string :=
  match resp with
  | Completion (c :: _) =>
      Returned (PyStr.strip (match c with Some s => s | None => EmptyString end))
  | _ => Raised
  end.

(** Lines 73-79 and 279-285: the string under [key] of the JSON object in
    the first choice; [None] when anything raises or the field is not a
    string. *)
Definition json_answer (key : string) (resp : outcome chat_response) : option string :=
  match (r <- resp ;; first_content r) with
  | Returned content =>
      match json_loads content with
      | Some data => str_field key data
      | None => None
      end
  | Raised => None
  end.

(** The request of lines 65-72. *)
Definition extract_request (post_url : string) : chat_request :=
  {| model := "groq/compound-mini";
     messages := [("system", EXTRACTOR_SYSTEM); ("user", post_url)];
     stream := false |}.

(** [_extract_post_with_kimi] (lines 60-79) *)
Definition _extract_post_with_kimi (post_url : string) : M (option string) :=
  if negb _groq then ret None
  else
    let* resp := create (extract_request post_url) in
    ret (json_answer "post_text" resp).

(** [_extract_x_post_with_browser_use] (lines 83-249) *)
Definition _extract_x_post_with_browser_use (post_url : string) : M (option string) :=
  if negb key_present then ret None
  else
    let* _ := log_call (AgentCall (task post_url)) in
    ret (XExtractor.recover (result <- agent_run env (task post_url) ;;
                             XExtractor.from_result result)).

(** The request of lines 271-278. *)
Definition query_request (post_text user_note : string) : chat_request :=
  {| model := "moonshotai/kimi-k2-instruct";
     messages :=
       [("system", QUERY_BUILDER_SYSTEM);
        ("user", json_dumps (JObj [("post_text", JStr post_text);
                                   ("user_note", JStr user_note)]))];
     stream := false |}.

(** [_shape_query_with_kimi] (lines 266-285) *)
Definition _shape_query_with_kimi (post_text user_note : string) : M (option string) :=
  if negb _groq then ret None
  else
    let* resp := create (query_request post_text user_note) in
    ret (json_answer "query" resp).

(** The loop of lines 301-306 over the chunks still to come, [buf] being
    joined so far. *)
Fixpoint join_deltas (buf : string) (chunks : list (outcome (list choice))) : outcome string :=
  match chunks with
  | [] => Returned buf
  | Returned (Some delta :: _) :: rest =>
      join_deltas (if PyStr.nonempty delta then buf ++ delta else buf) rest
  | Returned (None :: _) :: rest => join_deltas buf rest
  | Returned [] :: _ => Raised          (* [chunk.choices[0]] *)
  | Raised :: _ => Raised
  end.

(** The request of lines 293-300. *)
Definition answer_request (query : string) : chat_request :=
  {| model := "groq/compound";
     messages := [("user", query)];
     stream := true |}.

(** [_compound_search] (lines 288-308) *)
Definition _compound_search (query : string) : M string :=
  if negb _groq then ret EmptyString
  else
    let* resp := create (answer_request query) in
    ret (match resp with
         | Returned (Chunks chunks) =>
             match join_deltas EmptyString chunks with
             | Returned answer => answer
             | Raised => EmptyString
             end
         | _ => EmptyString
         end).

(** The request body of [POST /trigger] (lines 320-322). *)
Record Trigger : Type := { url : string; note : string }.

(** The record built at lines 467-475. *)
Record Report : Type := {
  timestamp : string;
  post_url : string;
  user_note : string;
  source : string;
  post_text : string;
  query : string;
  compound_answer : string
}.

(** The [dict] of lines 467-475, with its keys in order. *)
Definition report_dict (r : Report) : json :=
  JObj [("timestamp", JStr (timestamp r));
        ("post_url", JStr (post_url r));
        ("user_note", JStr (user_note r));
        ("source", JStr (source r));
        ("post_text", JStr (post_text r));
        ("query", JStr (query r));
        ("compound_answer", JStr (compound_answer r))].

(** [x or default] on an optional string. *)
Definition or_str (x : option string) (default : string) : string :=
  match x with
  | Some s => if PyStr.nonempty s then s else default
  | None => default
  end.

(** Step 1 of [trigger] (lines 453-458). *)
Definition extract_step (source post_url : string) : M string :=
  if String.eqb source "x" then
    let* t := _extract_x_post_with_browser_use post_url in
    ret (or_str t EmptyString)
  else
    let* t := _extract_post_with_kimi post_url in
    ret (or_str t EmptyString).

(** The fallback of line 461. *)
Definition fallback_query (note source : string) : string :=
  note ++ " (source: " ++ source ++ ")".

(** Step 2 of [trigger] (line 461). *)
Definition query_step (post_text note source : string) : M string :=
  let* q := _shape_query_with_kimi post_text note in
  ret (or_str q (fallback_query note source)).

(** The write of line 476 into the report file. *)
Definition persist (data : json) : M unit :=
  fun w => (tt, {| reports := Store._append_jsonl (reports w) data; calls := calls w |}).

(** [trigger] (lines 448-477) *)
Definition trigger (req : Trigger) : M Report :=
  let source := _detect_source (url req) in
  let* post_text := extract_step source (url req) in
  let* query := query_step post_text (note req) source in
  let* compound_answer := _compound_search query in
  let result := {| timestamp := utcnow_isoformat env ++ "Z";
                   post_url := url req;
                   user_note := note req;
                   source := source;
                   post_text := post_text;
                   query := query;
                   compound_answer := compound_answer |} in
  let* _ := persist (report_dict result) in
  ret result.

End Pipeline.

(** ** A codec instance

    [dumps] writes a value the way [json.dumps(_, ensure_ascii=False)]
    does.  [loads] is a decoder for the texts the service writes, an object
    whose values are strings; it refuses every other text, so it is the
    library's decoder restricted to such objects.  [encode] and [decode]
    are UTF-8 on the characters below 256; [decode] refuses every other
    sequence of bytes, so it is the library's decoder restricted to such
    texts. *)

Module SampleCodec.

Definition quote : ascii := ascii_of_nat 34.
Definition backslash : ascii := ascii_of_nat 92.

Definition hex_digit (n : nat) : ascii :=
  if n <? 10 then ascii_of_nat (48 + n) else ascii_of_nat (87 + n).

(** One character inside a JSON string. *)
Definition escape_char (c : ascii) : string :=
  let n := nat_of_ascii c in
  if Ascii.eqb c quote then String backslash (String quote EmptyString)
  else if Ascii.eqb c backslash then String backslash (String backslash EmptyString)
  else if n =? 10 then String backslash "n"
  else if n =? 13 then String backslash "r"
  else if n =? 9 then String backslash "t"
  else if n =? 8 then String backslash "b"
  else if n =? 12 then String backslash "f"
  else if n <? 32 then
    String backslash ("u00" ++ String (hex_digit (n / 16)) (String (hex_digit (n mod 16)) EmptyString))
  else String c EmptyString.

Fixpoint escape (s : string) : string :=
  match s with
  | EmptyString => EmptyString
  | String c s' => escape_char c ++ escape s'
  end.

Definition dumps_str (s : string) : string :=
  String quote (escape s ++ String quote EmptyString).

Fixpoint join (sep : string) (parts : list string) : string :=
  match parts with
  | [] => EmptyString
  | [p] => p
  | p :: rest => p ++ sep ++ join sep rest
  end.

Fixpoint dumps (v : json) : string :=
  match v with
  | JNull => "null"
  | JBool true => "true"
  | JBool false => "false"
  | JInt z => DecimalString.NilZero.string_of_int (Z.to_int z)
  | JFloat literal => literal
  | JStr s => dumps_str s
  | JArr items => "[" ++ join ", " (map dumps items) ++ "]"
  | JObj fields =>
      "{" ++ join ", " (map (fun kv => dumps_str (fst kv) ++ ": " ++ dumps (snd kv)) fields)
          ++ "}"
  end.

(** White space between the tokens of a JSON text. *)
Definition is_ws (c : ascii) : bool :=
  let n := nat_of_ascii c in
  (n =? 32) || (n =? 9) || (n =? 10) || (n =? 13).

Fixpoint skip_ws (s : string) : string :=
  match s with
  | String c s' => if is_ws c then skip_ws s' else s
  | EmptyString => EmptyString
  end.

(** The character an escape stands for; the [\u] escapes are refused. *)
Definition unescape (e : ascii) : option ascii :=
  let n := nat_of_ascii e in
  if Ascii.eqb e quote then Some quote
  else if Ascii.eqb e backslash then Some backslash
  else if n =? 47 then Some e
  else if n =? 110 then Some (ascii_of_nat 10)
  else if n =? 114 then Some (ascii_of_nat 13)
  else if n =? 116 then Some (ascii_of_nat 9)
  else if n =? 98 then Some (ascii_of_nat 8)
  else if n =? 102 then Some (ascii_of_nat 12)
  else None.

(** A string after its opening quote: its value and the text after its
    closing quote. *)
Fixpoint string_body (s : string) : option (string * string) :=
  match s with
  | EmptyString => None
  | String c s' =>
      if Ascii.eqb c quote then Some (EmptyString, s')
      else if Ascii.eqb c backslash then
        match s' with
        | String e s'' =>
            match unescape e, string_body s'' with
            | Some d, Some (v, rest) => Some (String d v, rest)
            | _, _ => None
            end
        | EmptyString => None
        end
      else if nat_of_ascii c <? 32 then None
      else
        match string_body s' with
        | Some (v, rest) => Some (String c v, rest)
        | None => None
        end
  end.

(** A quoted string at the start of [s]. *)
Definition quoted (s : string) : option (string * string) :=
  match s with
  | String c s' => if Ascii.eqb c quote then string_body s' else None
  | EmptyString => None
  end.

(** The members of an object after its opening brace or after a comma, up
    to the closing brace; [fuel] bounds the number of members. *)
Fixpoint members (fuel : nat) (s : string) : option (list (string * json) * string) :=
  match fuel with
  | O => None
  | S fuel' =>
      match quoted (skip_ws s) with
      | Some (key, rest) =>
          match skip_ws rest with
          | String c rest1 =>
              if Ascii.eqb c ":" then
                match quoted (skip_ws rest1) with
                | Some (value, rest2) =>
                    match skip_ws rest2 with
                    | String d rest3 =>
                        if Ascii.eqb d "}" then Some ([(key, JStr value)], rest3)
                        else if Ascii.eqb d "," then
                          match members fuel' rest3 with
                          | Some (more, rest4) => Some ((key, JStr value) :: more, rest4)
                          | None => None
                          end
                        else None
                    | EmptyString => None
                    end
                | None => None
                end
              else None
          | EmptyString => None
          end
      | None => None
      end
  end.

Fixpoint distinct (keys : list string) : bool :=
  match keys with
  | [] => true
  | k :: rest => negb (existsb (String.eqb k) rest) && distinct rest
  end.

Definition loads (s : string) : option json :=
  match skip_ws s with
  | String c s' =>
      if Ascii.eqb c "{" then
        match skip_ws s' with
        | String d s'' =>
            if Ascii.eqb d "}" then
              match skip_ws s'' with
              | EmptyString => Some (JObj [])
              | _ => None
              end
            else
              match members (String.length s) s' with
              | Some (fields, rest) =>
                  match skip_ws rest with
                  | EmptyString =>
                      if distinct (map fst fields) then Some (JObj fields) else None
                  | _ => None
                  end
              | None => None
              end
        | EmptyString => None
        end
      else None
  | EmptyString => None
  end.

(** The bytes of a character below 256: itself below 128, and otherwise
    a leading byte 0xC2 or 0xC3 followed by one continuation byte. *)
Definition encode_char (c : ascii) : list byte :=
  let n := nat_of_ascii c in
  if n <? 128 then [byte_of_ascii c]
  else [byte_of_ascii (ascii_of_nat (192 + n / 64));
        byte_of_ascii (ascii_of_nat (128 + n mod 64))].

Fixpoint encode (s : string) : list byte :=
  match s with
  | EmptyString => []
  | String c s' => (encode_char c ++ encode s')%list
  end.

(** The text of bytes that encode characters below 256; every other
    sequence of bytes is refused. *)
Fixpoint decode (bytes : list byte) : option string :=
  match bytes with
  | [] => Some EmptyString
  | b :: rest =>
      let n := Byte.to_nat b in
      if n <? 128 then option_map (String (ascii_of_byte b)) (decode rest)
      else if (n =? 194) || (n =? 195) then
        match rest with
        | b2 :: rest' =>
            let m := Byte.to_nat b2 in
            if (128 <=? m) && (m <? 192)
            then option_map (String (ascii_of_nat ((n - 192) * 64 + (m - 128))))
                            (decode rest')
            else None
        | [] => None
        end
      else None
  end.

Lemma decode_encode_char (c : ascii) (rest : list byte) :
  decode (encode_char c ++ rest) = option_map (String c) (decode rest).
Proof. destruct c as [[] [] [] [] [] [] [] []]; reflexivity. Qed.

Lemma decode_encode_app (t : string) (rest : list byte) :
  decode (encode t ++ rest) = option_map (append t) (decode rest).
Proof.
  induction t as [|c t IH]; cbn [encode app].
  - destruct (decode rest); reflexivity.
  - rewrite <- app_assoc, decode_encode_char, IH. destruct (decode rest); reflexivity.
Qed.

Lemma decode_encode (t : string) : decode (encode t) = Some t.
Proof.
  rewrite <- (app_nil_r (encode t)), decode_encode_app. cbn.
  f_equal. induction t as [|c t IH]; cbn; [reflexivity | now rewrite IH].
Qed.

(** The bytes of a text never start with a continuation byte. *)
Lemma decode_lead_then_text (b : byte) (t : string) :
  (Byte.to_nat b =? 194) || (Byte.to_nat b =? 195) = true ->
  decode (b :: encode t) = None.
Proof.
  intros L. cbn [decode]. rewrite L.
  replace (Byte.to_nat b <? 128) with false
    by (apply orb_true_iff in L as [L|L]; apply Nat.eqb_eq in L; rewrite L; reflexivity).
  destruct t as [|c t]; [reflexivity|].
  cbn [encode]. destruct c as [[] [] [] [] [] [] [] []]; reflexivity.
Qed.

Lemma decode_app_by_length (n : nat) :
  forall bytes text rest,
    length bytes <= n -> decode bytes = Some text ->
    decode (bytes ++ rest) = option_map (append text) (decode rest).
Proof.
  induction n as [|n IH]; intros bytes text rest Hn D.
  - destruct bytes; [|cbn in Hn; lia]. injection D as <-.
    cbn. destruct (decode rest); reflexivity.
  - destruct bytes as [|b bytes]; [injection D as <-; cbn; destruct (decode rest); reflexivity|].
    cbn [decode app] in *. cbn [length] in Hn.
    destruct (Byte.to_nat b <? 128).
    + destruct (decode bytes) as [t|] eqn:E; [|discriminate]. injection D as <-.
      rewrite (IH bytes t rest) by (auto; lia). destruct (decode rest); reflexivity.
    + destruct ((Byte.to_nat b =? 194) || (Byte.to_nat b =? 195)); [|discriminate].
      destruct bytes as [|b2 bytes]; [discriminate|]. cbn [app length] in *.
      destruct ((128 <=? Byte.to_nat b2) && (Byte.to_nat b2 <? 192)); [|discriminate].
      destruct (decode bytes) as [t|] eqn:E; [|discriminate]. injection D as <-.
      rewrite (IH bytes t rest) by (auto; lia). destruct (decode rest); reflexivity.
Qed.

Lemma decode_app (bytes : list byte) (text t : string) :
  decode bytes = Some text -> decode (bytes ++ encode t) = Some (text ++ t)%string.
Proof.
  intros D. rewrite (decode_app_by_length (length bytes) bytes text) by auto.
  now rewrite decode_encode.
Qed.

Lemma decode_cons (b : byte) (rest : list byte) :
  decode (b :: rest)
  = if Byte.to_nat b <? 128 then option_map (String (ascii_of_byte b)) (decode rest)
    else if (Byte.to_nat b =? 194) || (Byte.to_nat b =? 195) then
      match rest with
      | b2 :: rest' =>
          if (128 <=? Byte.to_nat b2) && (Byte.to_nat b2 <? 192)
          then option_map (String (ascii_of_nat ((Byte.to_nat b - 192) * 64
                                                 + (Byte.to_nat b2 - 128))))
                          (decode rest')
          else None
      | [] => None
      end
    else None.
Proof. reflexivity. Qed.

Lemma decode_app_error_by_length (n : nat) :
  forall bytes t,
    length bytes <= n -> decode bytes = None -> decode (bytes ++ encode t) = None.
Proof.
  induction n as [|n IH]; intros bytes t Hn D.
  - destruct bytes; [discriminate D | cbn in Hn; lia].
  - destruct bytes as [|b bytes]; [discriminate D|].
    cbn [length] in Hn. rewrite decode_cons in D.
    change ((b :: bytes) ++ encode t)%list with (b :: (bytes ++ encode t))%list.
    rewrite decode_cons.
    destruct (Byte.to_nat b <? 128) eqn:A.
    + destruct (decode bytes) as [x|] eqn:E; [discriminate|].
      rewrite (IH bytes t) by (auto; lia). reflexivity.
    + destruct ((Byte.to_nat b =? 194) || (Byte.to_nat b =? 195)) eqn:L; [|reflexivity].
      destruct bytes as [|b2 bytes].
      * cbn [app]. pose proof (decode_lead_then_text b t L) as X.
        rewrite decode_cons, A, L in X. exact X.
      * cbn [app]. cbn [length] in Hn.
        destruct ((128 <=? Byte.to_nat b2) && (Byte.to_nat b2 <? 192)); [|reflexivity].
        destruct (decode bytes) as [x|] eqn:E; [discriminate|].
        rewrite (IH bytes t) by (auto; lia). reflexivity.
Qed.

Lemma decode_app_error (bytes : list byte) (t : string) :
  decode bytes = None -> decode (bytes ++ encode t) = None.
Proof. apply (decode_app_error_by_length (length bytes)). auto. Qed.

Lemma encode_app (a b : string) : encode (a ++ b) = (encode a ++ encode b)%list.
Proof.
  induction a as [|c a IH]; cbn [append encode app]; [reflexivity|].
  now rewrite IH, app_assoc.
Qed.

Definition codec : Codecs :=
  {| json_loads := loads;
     json_dumps := dumps;
     utf8_encode := encode;
     utf8_decode := decode;
     utf8_encode_app := encode_app;
     utf8_encode_newline := eq_refl;
     utf8_decode_nil := eq_refl;
     utf8_decode_encode := decode_encode;
     utf8_decode_app := decode_app;
     utf8_decode_app_error := decode_app_error |}.

End SampleCodec.

(** ** Sample worlds and environments *)

Module Samples.

(** No report file yet and no call made. *)
Definition world0 : World := {| reports := None; calls := [] |}.

(** No API key in the environment. *)
Definition env_no_key : Env :=
  {| GROQ_API_KEY := None;
     chat_create := fun _ => Raised;
     agent_run := fun _ => Raised;
     utcnow_isoformat := "2025-01-01T00:00:00.000000" |}.

(** A key is set and every collaborator raises. *)
Definition env_raising : Env :=
  {| GROQ_API_KEY := Some "gsk_test";
     chat_create := fun _ => Raised;
     agent_run := fun _ => Raised;
     utcnow_isoformat := "2025-01-01T00:00:00.000000" |}.

(** A result of the agent in which nothing can be recognised. *)
Definition empty_history : pyobj :=
  Obj [] None None (Returned "AgentHistoryList(all_results=[], all_model_outputs=[])").

(** A key is set, the agent returns [empty_history], the completions
    come back without a choice and the stream without a chunk. *)
Definition env_silent : Env :=
  {| GROQ_API_KEY := Some "gsk_test";
     chat_create := fun req => Returned (if stream req then Chunks [] else Completion []);
     agent_run := fun _ => Returned empty_history;
     utcnow_isoformat := "2025-01-01T00:00:00.000000" |}.

(** A key is set and every collaborator answers. *)
Definition env_ok : Env :=
  {| GROQ_API_KEY := Some "gsk_test";
     chat_create := fun req =>
       Returned
         (if stream req then Chunks [Returned [Some "An "]; Returned [None]; Returned [Some "answer"]]
          else if String.eqb (model req) "groq/compound-mini"
               then Completion [Some (SampleCodec.dumps (JObj [("post_text", JStr "Hello world")]))]
               else Completion [Some (SampleCodec.dumps (JObj [("query", JStr "hello world research")]))]);
     agent_run := fun _ =>
       Returned (Obj [("final_result",
                       Returned (VObj (Obj [] (Some (Returned (VStr "Author: A Tweet: hi "))) None
                                           (Returned "<bound method>"))))]
                     None None (Returned "AgentHistoryList()"));
     utcnow_isoformat := "2025-01-01T00:00:00.000000" |}.

(** The request of the end-to-end example of the spec. *)
Definition x_request : Trigger := {| url := "https://x.com/foo/status/1"; note := "summarize" |}.

Definition linkedin_request : Trigger :=
  {| url := "https://www.linkedin.com/posts/foo-1"; note := "summarize" |}.

(** Records and report files for the store. *)
Definition record1 : json := JObj [("post_url", JStr "https://x.com/foo/status/1"); ("query", JStr "first")].
Definition record2 : json := JObj [("post_url", JStr "https://x.com/foo/status/2"); ("query", JStr "second")].
Definition record3 : json := JObj [("post_url", JStr "https://x.com/foo/status/3"); ("query", JStr "third")].


(** A file with a line that holds a byte no UTF-8 text has. *)
Definition not_utf8_file : Store.file :=
  Some (SampleCodec.encode (SampleCodec.dumps record1 ++ Store.newline)
        ++ xff :: SampleCodec.encode Store.newline)%list.



(** A history whose done action carries one space as its text:
    [final_result()] returns that space, the iteration gives the pair of
    the field name and its value, [extracted_content] is a method, and the
    string form shows the action. *)
Definition bound_method (returns : pyval) : pyval :=
  VObj (Obj [] (Some (Returned returns)) None (Returned "<bound method>")).

Definition blank_done_action : pyval :=
  VObj (Obj [("is_done", Returned (VBool true));
             ("success", Returned (VBool true));
             ("extracted_content", Returned (VStr " "))]
            None None
            (Returned "ActionResult(is_done=True, success=True, extracted_content=' ')")).

Definition blank_done_history : pyobj :=
  Obj [("final_result", Returned (bound_method (VStr " ")));
       ("extracted_content", Returned (bound_method (VList [VStr " "])));
       ("history", Returned (VList [VObj (Obj [("result", Returned (VList [blank_done_action]))]
                                            None None (Returned "AgentHistory()"))]))]
      None
      (Some [VList [VStr "history"; VList []]])
      (Returned "AgentHistoryList(all_results=[ActionResult(is_done=True, success=True, extracted_content=' ')], all_model_outputs=[])").

(** A key is set and the agent returns [blank_done_history]. *)
Definition env_blank_done : Env :=
  {| GROQ_API_KEY := Some "gsk_test";
     chat_create := fun _ => Raised;
     agent_run := fun _ => Returned blank_done_history;
     utcnow_isoformat := "2025-01-01T00:00:00.000000" |}.

End Samples.

(** * Properties *)

(** ** Sample runs *)

Example detect_x : _detect_source "https://x.com/foo/status/1" = "x".
Proof. reflexivity. Qed.

Example detect_upper : _detect_source "HTTPS://WWW.LinkedIn.COM/posts/1" = "linkedin".
Proof. reflexivity. Qed.

Example detect_both : _detect_source "https://twitter.com/search?q=linkedin.com" = "linkedin".
Proof. reflexivity. Qed.

Example search_done :
  Regex.search Regex.pattern
    "[ActionResult(is_done=False, extracted_content='Waited for 3 s'), ActionResult(is_done=True, success=True, extracted_content='Author: A Tweet: hi', x=1)]"
  = Some "Author: A Tweet: hi".
Proof. reflexivity. Qed.

Example findall_two :
  Regex.findall Regex.pattern2 "extracted_content='a' extracted_content='' extracted_content='b c'"
  = ["a"; "b c"].
Proof. reflexivity. Qed.

(** ** Strings *)

Module PyStrFacts.
Import PyStr.

Lemma prefix_app (n post : string) : prefix n (n ++ post) = true.
Proof.
  induction n as [|c n IH]; simpl.
  - destruct post; reflexivity.
  - destruct (ascii_dec c c) as [_|ne]; [exact IH | contradiction].
Qed.

Lemma prefix_inv (n h : string) :
  prefix n h = true -> exists post, h = (n ++ post)%string.
Proof.
  revert h; induction n as [|c n IH]; intros h H.
  - exists h; reflexivity.
  - destruct h as [|d h]; simpl in H; [discriminate|].
    destruct (ascii_dec c d) as [e|ne]; [|discriminate].
    destruct (IH h H) as [post ->]. exists post. subst d. reflexivity.
Qed.

(** [needle in hay] holds exactly when the haystack splits around the needle. *)
Lemma contains_spec (n h : string) :
  contains n h = true <-> exists pre post, h = (pre ++ n ++ post)%string.
Proof.
  split.
  - induction h as [|c h IH]; cbn [contains]; intros H.
    + rewrite orb_false_r in H. apply prefix_inv in H as [post ->].
      exists EmptyString, post. reflexivity.
    + apply orb_true_iff in H as [H|H].
      * apply prefix_inv in H as [post ->]. exists EmptyString, post. reflexivity.
      * destruct (IH H) as (pre & post & ->). exists (String c pre), post. reflexivity.
  - intros (pre & post & ->). induction pre as [|c pre IH].
    + change (EmptyString ++ n ++ post)%string with (n ++ post)%string.
      destruct (n ++ post)%string eqn:E; cbn [contains];
        rewrite <- E, prefix_app; reflexivity.
    + change (String c pre ++ n ++ post)%string with (String c (pre ++ n ++ post)).
      cbn [contains]. rewrite IH. apply orb_true_r.
Qed.

Lemma lower_app (a b : string) : lower (a ++ b) = (lower a ++ lower b)%string.
Proof. induction a as [|c a IH]; simpl; [reflexivity | now rewrite IH]. Qed.

(** A split of the lowered string comes from a split of the string. *)
Lemma lower_split (u a b : string) :
  lower u = (a ++ b)%string ->
  exists u1 u2, u = (u1 ++ u2)%string /\ lower u1 = a /\ lower u2 = b.
Proof.
  revert u; induction a as [|c a IH]; intros u H.
  - exists EmptyString, u. auto.
  - destruct u as [|d u]; simpl in H; [discriminate|].
    injection H as Hc Hu. destruct (IH u Hu) as (u1 & u2 & -> & H1 & H2).
    exists (String d u1), u2. simpl. rewrite H1, Hc. auto.
Qed.

Lemma lower_char_idem (c : ascii) : lower_char (lower_char c) = lower_char c.
Proof.
  destruct c as [[] [] [] [] [] [] [] []]; reflexivity.
Qed.

Lemma lower_idem (s : string) : lower (lower s) = lower s.
Proof.
  induction s as [|c s IH]; simpl; [reflexivity|].
  now rewrite lower_char_idem, IH.
Qed.

End PyStrFacts.

(** ** Source classifier *)

(** [needle] occurs in [url] up to letter case: some substring of the URL
    is the needle once lowered. *)
Definition occurs_ci (needle url : string) : Prop :=
  exists pre mid post,
    url = (pre ++ mid ++ post)%string /\ PyStr.lower mid = needle.

Lemma contains_lower_iff (needle url : string) :
  PyStr.contains needle (PyStr.lower url) = true <-> occurs_ci needle url.
Proof.
  rewrite PyStrFacts.contains_spec. split.
  - intros (pre & post & H).
    apply PyStrFacts.lower_split in H as (u1 & u2 & -> & H1 & H2).
    apply PyStrFacts.lower_split in H2 as (m & u3 & -> & H2 & H3).
    exists u1, m, u3. auto.
  - intros (pre & mid & post & -> & <-).
    exists (PyStr.lower pre), (PyStr.lower post).
    now rewrite !PyStrFacts.lower_app.
Qed.

Lemma contains_lower_false (needle url : string) :
  PyStr.contains needle (PyStr.lower url) = false <-> ~ occurs_ci needle url.
Proof.
  rewrite <- contains_lower_iff.
  destruct (PyStr.contains _ _); split; intros H; congruence.
Qed.

(** The classes of the spec. *)
Definition is_linkedin (url : string) : Prop := occurs_ci "linkedin.com" url.
Definition is_x (url : string) : Prop :=
  occurs_ci "x.com" url \/ occurs_ci "twitter.com" url.

Lemma detect_source_cases (url : string) :
  (is_linkedin url /\ _detect_source url = "linkedin")
  \/ (~ is_linkedin url /\ is_x url /\ _detect_source url = "x")
  \/ (~ is_linkedin url /\ ~ is_x url /\ _detect_source url = "unknown").
Proof.
  unfold _detect_source, is_linkedin, is_x.
  destruct (PyStr.contains "linkedin.com" (PyStr.lower url)) eqn:L.
  - left. split; [now apply contains_lower_iff | reflexivity].
  - right. apply contains_lower_false in L.
    destruct (PyStr.contains "x.com" (PyStr.lower url)) eqn:X.
    + left. repeat split; auto. left. now apply contains_lower_iff.
    + destruct (PyStr.contains "twitter.com" (PyStr.lower url)) eqn:T.
      * left. repeat split; auto. right. now apply contains_lower_iff.
      * right. apply contains_lower_false in X, T.
        repeat split; auto. intros [H|H]; contradiction.
Qed.

(** The classifier returns one of the three source names. *)
Lemma detect_source_range (url : string) :
  _detect_source url = "linkedin" \/ _detect_source url = "x"
  \/ _detect_source url = "unknown".
Proof.
  destruct (detect_source_cases url) as [[_ H]|[(_ & _ & H)|(_ & _ & H)]]; auto.
Qed.

(** C2: the classifier has no error case and answers in this order:
    "linkedin" for the URLs that contain "linkedin.com" up to letter case,
    otherwise "x" for those that contain "x.com" or "twitter.com" up to
    letter case, and otherwise "unknown"; two URLs that differ only in
    letter case get the same answer. *)
Theorem detect_source_spec (url : string) :
  (_detect_source url = "linkedin" <-> is_linkedin url)
  /\ (_detect_source url = "x" <-> ~ is_linkedin url /\ is_x url)
  /\ (_detect_source url = "unknown" <-> ~ is_linkedin url /\ ~ is_x url)
  /\ (forall url', PyStr.lower url' = PyStr.lower url ->
                   _detect_source url' = _detect_source url).
Proof.
  assert (CI : forall url', PyStr.lower url' = PyStr.lower url ->
                            _detect_source url' = _detect_source url).
  { intros url' E. unfold _detect_source. now rewrite E. }
  destruct (detect_source_cases url) as [[L E]|[(NL & X & E)|(NL & NX & E)]];
    rewrite E in *; (split; [|split; [|split]]); try exact CI;
    split; intros H; try discriminate H; try tauto.
Qed.

(** The statement of [detect_source_spec] at the URL of the end-to-end
    example of the spec. *)
Lemma detect_source_spec_witness :
  _detect_source "https://x.com/foo/status/1" = "x"
  /\ _detect_source "HTTPS://X.COM/foo/status/1" = "x".
Proof.
  pose proof (detect_source_spec "https://x.com/foo/status/1") as (_ & [_ H] & _ & C).
  split.
  - apply H. split.
    + apply contains_lower_false. reflexivity.
    + left. apply contains_lower_iff. reflexivity.
  - rewrite (C "HTTPS://X.COM/foo/status/1" eq_refl). reflexivity.
Defined.
Example sample_roundtrip :
  SampleCodec.loads (SampleCodec.dumps (JObj [("a", JStr "b"); ("q", JStr "x y")]))
  = Some (JObj [("a", JStr "b"); ("q", JStr "x y")]).
Proof. vm_compute. reflexivity. Qed.

(** ** The steps of the pipeline *)

Section PipelineFacts.
Context {codec : Codecs}.

(** A completion that gives no string under [key]: the call raised, there
    is no choice to read, the content is not JSON, or the JSON is not an
    object with a string under [key]. *)
Inductive completion_failure (key : string) : outcome chat_response -> Prop :=
| call_raised : completion_failure key Raised
| no_choice resp :
    first_content resp = Raised -> completion_failure key (Returned resp)
| malformed resp content :
    first_content resp = Returned content ->
    json_loads content = None ->
    completion_failure key (Returned resp)
| field_missing resp content data :
    first_content resp = Returned content ->
    json_loads content = Some data ->
    str_field key data = None ->
    completion_failure key (Returned resp).

(** A completion that gives [text] under [key]. *)
Definition completion_success (key : string) (resp : outcome chat_response)
           (text : string) : Prop :=
  exists r content data,
    resp = Returned r /\ first_content r = Returned content
    /\ json_loads content = Some data /\ str_field key data = Some text.

Lemma json_answer_none (key : string) (resp : outcome chat_response) :
  json_answer key resp = None <-> completion_failure key resp.
Proof.
  unfold json_answer. split.
  - destruct resp as [r|]; cbn [bind]; [|constructor].
    destruct (first_content r) as [content|] eqn:F; [|now constructor].
    destruct (json_loads content) as [data|] eqn:L; intros H.
    + eapply field_missing; eauto.
    + eapply malformed; eauto.
  - intros [ | r F | r content F L | r content data F L S ]; cbn [bind];
      try reflexivity; rewrite F; try reflexivity; rewrite L; auto.
Qed.

Lemma json_answer_some (key : string) (resp : outcome chat_response) (text : string) :
  json_answer key resp = Some text <-> completion_success key resp text.
Proof.
  unfold json_answer, completion_success. split.
  - destruct resp as [r|]; cbn [bind]; [|discriminate].
    destruct (first_content r) as [content|] eqn:F; [|discriminate].
    destruct (json_loads content) as [data|] eqn:L; [|discriminate].
    intros H. exists r, content, data. auto.
  - intros (r & content & data & -> & F & L & S). cbn [bind]. now rewrite F, L.
Qed.

(** A completion fails or succeeds, never both. *)
Lemma completion_failure_or_success (key : string) (resp : outcome chat_response) :
  completion_failure key resp \/ exists text, completion_success key resp text.
Proof.
  destruct (json_answer key resp) as [text|] eqn:E.
  - right. exists text. now apply json_answer_some.
  - left. now apply json_answer_none.
Qed.

Variable env : Env.

Lemma create_run (req : chat_request) (w : World) :
  create env req w
  = (chat_create env req, {| reports := reports w; calls := (calls w ++ [ChatCall req])%list |}).
Proof. reflexivity. Qed.

Lemma shape_query_run (post_text user_note : string) (w : World) :
  _shape_query_with_kimi env post_text user_note w
  = if key_present env
    then (json_answer "query" (chat_create env (query_request post_text user_note)),
          {| reports := reports w;
             calls := (calls w ++ [ChatCall (query_request post_text user_note)])%list |})
    else (None, w).
Proof.
  unfold _shape_query_with_kimi, _groq. destruct (key_present env); reflexivity.
Qed.

Lemma extract_post_run (post_url : string) (w : World) :
  _extract_post_with_kimi env post_url w
  = if key_present env
    then (json_answer "post_text" (chat_create env (extract_request post_url)),
          {| reports := reports w;
             calls := (calls w ++ [ChatCall (extract_request post_url)])%list |})
    else (None, w).
Proof.
  unfold _extract_post_with_kimi, _groq. destruct (key_present env); reflexivity.
Qed.

Lemma or_str_nonempty (x : option string) (default : string) :
  default <> EmptyString -> or_str x default <> EmptyString.
Proof.
  intros D. unfold or_str. destruct x as [[|c s]|]; simpl; auto; discriminate.
Qed.

Lemma fallback_query_nonempty (note source : string) :
  fallback_query note source <> EmptyString.
Proof.
  unfold fallback_query. destruct note; discriminate.
Qed.

Lemma query_step_run (post_text note source : string) (w : World) :
  query_step env post_text note source w
  = (or_str (fst (_shape_query_with_kimi env post_text note w)) (fallback_query note source),
     snd (_shape_query_with_kimi env post_text note w)).
Proof.
  unfold query_step, mbind, ret.
  destruct (_shape_query_with_kimi env post_text note w); reflexivity.
Qed.

End PipelineFacts.

(** The completion service cannot be reached for a request: no client, or
    the call or the reading of its answer fails. *)
Definition unreachable {codec : Codecs} (env : Env) (key : string)
           (req : chat_request) : Prop :=
  key_present env = false \/ completion_failure key (chat_create env req).

Lemma query_step_unreachable {codec : Codecs} (env : Env)
      (post_text note source : string) (w : World) :
  unreachable env "query" (query_request post_text note) ->
  fst (query_step env post_text note source w) = fallback_query note source.
Proof.
  intros U. rewrite query_step_run, shape_query_run. cbn [fst].
  destruct U as [K|F].
  - rewrite K. reflexivity.
  - destruct (key_present env); [|reflexivity].
    apply json_answer_none in F. cbn [fst]. rewrite F. reflexivity.
Qed.

(** C3: when the completion service is unreachable, the query builder step
    gives exactly the note, a space, "(source: ", the source and ")". *)
Theorem query_step_fallback {codec : Codecs} (env : Env)
        (post_text note source : string) (w : World) :
  unreachable env "query" (query_request post_text note) ->
  fst (query_step env post_text note source w)
  = (note ++ " (source: " ++ source ++ ")")%string.
Proof.
  intros U. rewrite (query_step_unreachable env post_text note source w U).
  unfold fallback_query. reflexivity.
Qed.

(** C9: the query of the query builder step is never the empty string. *)
Theorem query_step_nonempty {codec : Codecs} (env : Env)
        (post_text note source : string) (w : World) :
  fst (query_step env post_text note source w) <> EmptyString.
Proof.
  rewrite query_step_run. cbn [fst].
  apply or_str_nonempty, fallback_query_nonempty.
Qed.

Section TriggerFacts.
Context {codec : Codecs}.
Variable env : Env.

Lemma extract_x_run (post_url : string) (w : World) :
  _extract_x_post_with_browser_use env post_url w
  = if key_present env
    then (XExtractor.recover (result <- agent_run env (task post_url) ;;
                              XExtractor.from_result result),
          {| reports := reports w; calls := (calls w ++ [AgentCall (task post_url)])%list |})
    else (None, w).
Proof.
  unfold _extract_x_post_with_browser_use. destruct (key_present env); reflexivity.
Qed.

Lemma compound_search_run (query : string) (w : World) :
  _compound_search env query w
  = if key_present env
    then (match chat_create env (answer_request query) with
          | Returned (Chunks chunks) =>
              match join_deltas EmptyString chunks with
              | Returned answer => answer
              | Raised => EmptyString
              end
          | _ => EmptyString
          end,
          {| reports := reports w;
             calls := (calls w ++ [ChatCall (answer_request query)])%list |})
    else (EmptyString, w).
Proof.
  unfold _compound_search, _groq. destruct (key_present env); reflexivity.
Qed.

Lemma extract_step_run (source post_url : string) (w : World) :
  extract_step env source post_url w
  = if String.eqb source "x"
    then (or_str (fst (_extract_x_post_with_browser_use env post_url w)) EmptyString,
          snd (_extract_x_post_with_browser_use env post_url w))
    else (or_str (fst (_extract_post_with_kimi env post_url w)) EmptyString,
          snd (_extract_post_with_kimi env post_url w)).
Proof.
  unfold extract_step, mbind, ret. destruct (String.eqb source "x").
  - destruct (_extract_x_post_with_browser_use env post_url w); reflexivity.
  - destruct (_extract_post_with_kimi env post_url w); reflexivity.
Qed.

(** The steps before the write leave the report file alone. *)
Lemma extract_step_reports (source post_url : string) (w : World) :
  reports (snd (extract_step env source post_url w)) = reports w.
Proof.
  rewrite extract_step_run, extract_x_run, extract_post_run.
  destruct (String.eqb source "x"), (key_present env); reflexivity.
Qed.

Lemma query_step_reports (post_text note source : string) (w : World) :
  reports (snd (query_step env post_text note source w)) = reports w.
Proof.
  rewrite query_step_run, shape_query_run. destruct (key_present env); reflexivity.
Qed.

Lemma compound_search_reports (query : string) (w : World) :
  reports (snd (_compound_search env query w)) = reports w.
Proof.
  rewrite compound_search_run. destruct (key_present env); reflexivity.
Qed.

(** [trigger] step by step. *)
Lemma trigger_run (req : Trigger) (w : World) :
  let source := _detect_source (url req) in
  let s1 := extract_step env source (url req) w in
  let s2 := query_step env (fst s1) (note req) source (snd s1) in
  let s3 := _compound_search env (fst s2) (snd s2) in
  let result := {| timestamp := utcnow_isoformat env ++ "Z";
                   post_url := url req;
                   user_note := note req;
                   source := source;
                   post_text := fst s1;
                   query := fst s2;
                   compound_answer := fst s3 |} in
  trigger env req w
  = (result,
     {| reports := Store._append_jsonl (reports (snd s3)) (report_dict result);
        calls := calls (snd s3) |}).
Proof.
  cbv zeta. unfold trigger, mbind, ret, persist.
  destruct (extract_step env (_detect_source (url req)) (url req) w) as [pt w1].
  cbn [fst snd].
  destruct (query_step env pt (note req) (_detect_source (url req)) w1) as [q w2].
  cbn [fst snd].
  destruct (_compound_search env q w2) as [a w3].
  reflexivity.
Qed.

(** A broken chunk: the iteration raises there, or the chunk has no choice. *)
Definition broken (c : outcome (list choice)) : Prop :=
  c = Raised \/ c = Returned [].

(** A chunk whose delta carries no text. *)
Definition silent (c : outcome (list choice)) : Prop :=
  exists rest, c = Returned (None :: rest) \/ c = Returned (Some EmptyString :: rest).

Lemma join_deltas_broken (chunks : list (outcome (list choice))) (buf : string) :
  Exists broken chunks -> join_deltas buf chunks = Raised.
Proof.
  intros E. revert buf. induction E as [c rest [->| ->] | c rest _ IH]; intros buf.
  - reflexivity.
  - reflexivity.
  - destruct c as [[|[delta|] more]|]; cbn [join_deltas]; auto.
Qed.

Lemma join_deltas_silent (chunks : list (outcome (list choice))) (buf : string) :
  Forall silent chunks -> join_deltas buf chunks = Returned buf.
Proof.
  intros F. revert buf. induction F as [|c rest [more [->| ->]] _ IH]; intros buf;
    cbn [join_deltas]; auto.
Qed.

End TriggerFacts.

(** The answer synthesis fails or yields nothing: no streamed answer comes
    back, the stream breaks, or no chunk carries text. *)
Definition answer_failure (resp : outcome chat_response) : Prop :=
  resp = Raised
  \/ (exists choices, resp = Returned (Completion choices))
  \/ (exists chunks, resp = Returned (Chunks chunks)
                     /\ (Exists broken chunks \/ Forall silent chunks)).

(** The extraction yields nothing: no key, or, for an X post, the agent
    raises or the extractor recognises nothing in its result, and for the
    other sources the completion fails. *)
Definition extraction_yields_nothing {codec : Codecs} (env : Env)
           (source post_url : string) : Prop :=
  key_present env = false
  \/ if String.eqb source "x" then
       match agent_run env (task post_url) with
       | Raised => True
       | Returned result => XExtractor.recover (XExtractor.from_result result) = None
       end
     else completion_failure "post_text" (chat_create env (extract_request post_url)).

(** Every external call of a request fails or yields nothing. *)
Definition all_down {codec : Codecs} (env : Env) (req : Trigger) : Prop :=
  let source := _detect_source (url req) in
  extraction_yields_nothing env source (url req)
  /\ unreachable env "query" (query_request EmptyString (note req))
  /\ (key_present env = false
      \/ answer_failure (chat_create env (answer_request (fallback_query (note req) source)))).

Lemma extract_step_nothing {codec : Codecs} (env : Env) (source post_url : string)
      (w : World) :
  extraction_yields_nothing env source post_url ->
  fst (extract_step env source post_url w) = EmptyString.
Proof.
  intros H. rewrite extract_step_run, extract_x_run, extract_post_run.
  destruct H as [K|H].
  - rewrite K. destruct (String.eqb source "x"); reflexivity.
  - destruct (String.eqb source "x"), (key_present env); try reflexivity; cbn [fst].
    + destruct (agent_run env (task post_url)) as [result|]; cbn [bind].
      * rewrite H. reflexivity.
      * reflexivity.
    + apply json_answer_none in H. rewrite H. reflexivity.
Qed.

Lemma compound_search_failure {codec : Codecs} (env : Env) (query : string) (w : World) :
  key_present env = false \/ answer_failure (chat_create env (answer_request query)) ->
  fst (_compound_search env query w) = EmptyString.
Proof.
  intros H. rewrite compound_search_run. destruct H as [K|H].
  - rewrite K. reflexivity.
  - destruct (key_present env); [|reflexivity]. cbn [fst].
    destruct H as [-> | [[choices ->] | (chunks & -> & [B|S])]]; try reflexivity.
    + now rewrite join_deltas_broken.
    + now rewrite join_deltas_silent.
Qed.

Example trigger_ok :
  fst (trigger (codec := SampleCodec.codec) Samples.env_ok Samples.x_request Samples.world0)
  = {| timestamp := "2025-01-01T00:00:00.000000Z";
       post_url := "https://x.com/foo/status/1";
       user_note := "summarize";
       source := "x";
       post_text := "Author: A Tweet: hi";
       query := "hello world research";
       compound_answer := "An answer" |}.
Proof. vm_compute. reflexivity. Qed.

Example trigger_ok_linkedin :
  post_text (fst (trigger (codec := SampleCodec.codec) Samples.env_ok
                          Samples.linkedin_request Samples.world0))
  = "Hello world".
Proof. vm_compute. reflexivity. Qed.

(** ** The trigger handler *)

(** C1: when every external call of a request fails or yields nothing,
    [trigger] still returns a report; its post text is empty, its query is
    the note followed by " (source: ", the source and ")", and its answer
    is empty.  For the URL "https://x.com/foo/status/1" and the note
    "summarize" the source is "x", the note is kept, the post text is
    empty and the query is "summarize (source: x)". *)
Theorem trigger_degrades {codec : Codecs} (env : Env) (req : Trigger) (w : World) :
  all_down env req ->
  let r := fst (trigger env req w) in
  (post_text r = EmptyString
   /\ query r = (note req ++ " (source: " ++ _detect_source (url req) ++ ")")%string
   /\ compound_answer r = EmptyString
   /\ source r = _detect_source (url req)
   /\ user_note r = note req)
  /\ (url req = "https://x.com/foo/status/1" -> note req = "summarize" ->
      source r = "x" /\ user_note r = "summarize"
      /\ post_text r = EmptyString /\ query r = "summarize (source: x)").
Proof.
  intros (E & Q & A). rewrite trigger_run. cbv zeta. cbn [fst post_text query
    compound_answer source user_note].
  pose proof (extract_step_nothing env _ _ w E) as P.
  assert (Qf : fst (query_step env (fst (extract_step env (_detect_source (url req)) (url req) w))
                        (note req) (_detect_source (url req))
                        (snd (extract_step env (_detect_source (url req)) (url req) w)))
               = fallback_query (note req) (_detect_source (url req))).
  { rewrite P. apply query_step_unreachable. exact Q. }
  assert (Af : fst (_compound_search env
                      (fst (query_step env (fst (extract_step env (_detect_source (url req)) (url req) w))
                              (note req) (_detect_source (url req))
                              (snd (extract_step env (_detect_source (url req)) (url req) w))))
                      (snd (query_step env (fst (extract_step env (_detect_source (url req)) (url req) w))
                              (note req) (_detect_source (url req))
                              (snd (extract_step env (_detect_source (url req)) (url req) w)))))
               = EmptyString).
  { rewrite Qf. apply compound_search_failure. exact A. }
  rewrite Af, Qf, P. split.
  - repeat split; reflexivity.
  - intros U N. rewrite U, N. repeat split; reflexivity.
Qed.

(** [trigger_degrades] at the request of the spec, with a key set, an
    agent whose result holds nothing recognisable and completions that
    carry nothing. *)
Lemma trigger_degrades_witness :
  all_down (codec := SampleCodec.codec) Samples.env_silent Samples.x_request
  /\ let r := fst (trigger (codec := SampleCodec.codec) Samples.env_silent
                           Samples.x_request Samples.world0) in
     source r = "x" /\ user_note r = "summarize"
     /\ post_text r = EmptyString /\ query r = "summarize (source: x)".
Proof.
  assert (D : all_down (codec := SampleCodec.codec) Samples.env_silent Samples.x_request).
  { split; [|split].
    - right. reflexivity.
    - right. apply no_choice. reflexivity.
    - right. right. right. exists []. split; [reflexivity | right; constructor]. }
  split; [exact D|].
  exact (proj2 (trigger_degrades (codec := SampleCodec.codec) Samples.env_silent
                  Samples.x_request Samples.world0 D) eq_refl eq_refl).
Defined.

(** ** The post extractor for the other sources *)

(** C7, as amended: for the source "linkedin" or "unknown" the extraction
    step makes at most one completion call, which is not streamed: exactly
    one when an API key is set and none otherwise; it leaves the report
    file alone; and when no key is set or the completion fails (the call
    raises, there is no choice, the content is not JSON, or the JSON has no
    string under "post_text") the step gives the empty string. *)
Theorem extract_step_completion {codec : Codecs} (env : Env)
        (source post_url : string) (w : World) :
  source = "linkedin" \/ source = "unknown" ->
  let w' := snd (extract_step env source post_url w) in
  calls w' = (if key_present env
              then (calls w ++ [ChatCall (extract_request post_url)])%list
              else calls w)
  /\ stream (extract_request post_url) = false
  /\ reports w' = reports w
  /\ (unreachable env "post_text" (extract_request post_url) ->
      fst (extract_step env source post_url w) = EmptyString).
Proof.
  intros S. cbv zeta.
  assert (X : String.eqb source "x" = false) by (destruct S as [-> | ->]; reflexivity).
  split; [|split; [|split]].
  - rewrite extract_step_run, X, extract_post_run.
    destruct (key_present env); reflexivity.
  - reflexivity.
  - apply extract_step_reports.
  - intros U. apply extract_step_nothing.
    destruct U as [K|F]; [left; exact K | right; rewrite X; exact F].
Qed.

(** [extract_step_completion] for a LinkedIn URL, with a key set and a
    completion service that raises. *)
Lemma extract_step_completion_witness :
  calls (snd (extract_step (codec := SampleCodec.codec) Samples.env_raising "linkedin"
                           "https://www.linkedin.com/posts/foo-1" Samples.world0))
  = [ChatCall (extract_request "https://www.linkedin.com/posts/foo-1")]
  /\ fst (extract_step (codec := SampleCodec.codec) Samples.env_raising "linkedin"
                       "https://www.linkedin.com/posts/foo-1" Samples.world0)
     = EmptyString.
Proof.
  pose proof (extract_step_completion (codec := SampleCodec.codec) Samples.env_raising
                "linkedin" "https://www.linkedin.com/posts/foo-1" Samples.world0
                (or_introl eq_refl)) as (C & _ & _ & F).
  split.
  - exact C.
  - apply F. right. apply call_raised.
Defined.

(** C7 as stated fails: without an API key the extraction step for a
    LinkedIn URL returns without any completion call. *)
Lemma extract_step_without_key_makes_no_call :
  ~ (forall (env : Env) (source post_url : string) (w : World),
        source = "linkedin" \/ source = "unknown" ->
        exists req,
          calls (snd (extract_step (codec := SampleCodec.codec) env source post_url w))
          = (calls w ++ [ChatCall req])%list
          /\ stream req = false).
Proof.
  intros H.
  destruct (H Samples.env_no_key "linkedin" "https://www.linkedin.com/posts/foo-1"
              Samples.world0 (or_introl eq_refl)) as (req & C & _).
  vm_compute in C. discriminate C.
Qed.

(** [query_step_fallback] with a key set and a completion service that
    raises. *)
Lemma query_step_fallback_witness :
  unreachable (codec := SampleCodec.codec) Samples.env_raising "query"
              (query_request (codec := SampleCodec.codec) "" "summarize")
  /\ fst (query_step (codec := SampleCodec.codec) Samples.env_raising
                     "" "summarize" "x" Samples.world0)
     = "summarize (source: x)".
Proof.
  assert (U : unreachable (codec := SampleCodec.codec) Samples.env_raising "query"
                (query_request (codec := SampleCodec.codec) "" "summarize")).
  { right. apply call_raised. }
  split; [exact U|].
  exact (query_step_fallback (codec := SampleCodec.codec) Samples.env_raising
           "" "summarize" "x" Samples.world0 U).
Defined.

(** [query_step_nonempty] with an empty note. *)
Lemma query_step_nonempty_witness :
  fst (query_step (codec := SampleCodec.codec) Samples.env_ok
                  "Hello world" "" "linkedin" Samples.world0) <> EmptyString.
Proof.
  exact (query_step_nonempty (codec := SampleCodec.codec) Samples.env_ok
           "Hello world" "" "linkedin" Samples.world0).
Defined.

(** ** Report store *)

Module StoreFacts.
Import Store.

(** A text without a line break or a carriage return. *)
Fixpoint line_free (s : string) : bool :=
  match s with
  | EmptyString => true
  | String c s' => negb (Ascii.eqb c LF) && negb (Ascii.eqb c CR) && line_free s'
  end.

Lemma rstrip_app_newline (s : string) :
  PyStr.rstrip (s ++ newline) = PyStr.rstrip s.
Proof.
  induction s as [|c s IH]; [reflexivity|].
  cbn [append PyStr.rstrip]. now rewrite IH.
Qed.

(** The line break at the end of a line goes with the white space. *)
Lemma strip_app_newline (s : string) :
  PyStr.strip (s ++ newline) = PyStr.strip s.
Proof.
  unfold PyStr.strip. induction s as [|c s IH]; [reflexivity|].
  cbn [append PyStr.lstrip]. destruct (PyStr.is_space c); [exact IH|].
  apply (rstrip_app_newline (String c s)).
Qed.

Lemma readlines_nonempty (c : ascii) (s : string) : readlines (String c s) <> [].
Proof.
  cbn [readlines]. destruct (Ascii.eqb c LF); [discriminate|].
  destruct (Ascii.eqb c CR).
  - destruct s as [|c' s']; [discriminate|]. destruct (Ascii.eqb c' LF); discriminate.
  - destruct (readlines s); discriminate.
Qed.

(** A text without line breaks followed by one is one line. *)
Lemma readlines_one_line (s : string) :
  line_free s = true -> readlines (s ++ newline) = [(s ++ newline)%string].
Proof.
  induction s as [|c s IH]; [reflexivity|].
  cbn [line_free]. intros H.
  apply andb_true_iff in H as [H Hs]. apply andb_true_iff in H as [Hl Hc].
  apply negb_true_iff in Hl, Hc.
  cbn [append readlines]. rewrite Hl, Hc, (IH Hs). reflexivity.
Qed.

(** What follows a line break is read on its own. *)
Lemma readlines_after_newline (t rest : string) :
  readlines ((t ++ newline) ++ rest) = (readlines (t ++ newline) ++ readlines rest)%list.
Proof.
  induction t as [|c t IH]; [reflexivity|].
  cbn [append readlines].
  destruct (Ascii.eqb c LF); [cbn [app]; now rewrite IH|].
  destruct (Ascii.eqb c CR).
  - destruct t as [|c' t']; [reflexivity|].
    cbn [append readlines] in *.
    destruct (Ascii.eqb c' LF) eqn:E'.
    + cbn [app] in *. exact IH.
    + cbn [app]. f_equal. exact IH.
  - rewrite IH. destruct (readlines (t ++ newline)) as [|l ls] eqn:E; [|reflexivity].
    destruct t; [discriminate E | exfalso; exact (readlines_nonempty _ _ E)].
Qed.

End StoreFacts.

(** The file is absent, empty or ends with a line break, as every file
    written by [_append_jsonl] alone does. *)
Definition terminated (f : Store.file) : Prop :=
  match f with
  | None => True
  | Some bytes => bytes = [] \/ exists b, bytes = (b ++ [x0a])%list
  end.

(** The file is absent or its bytes are UTF-8. *)
Definition decodable {codec : Codecs} (f : Store.file) : Prop :=
  match f with
  | None => True
  | Some bytes => exists text, utf8_decode bytes = Some text
  end.

(** A text that is empty or ends with a line break. *)
Definition terminated_text (text : string) : Prop :=
  text = EmptyString \/ exists t, text = (t ++ Store.newline)%string.

(** The result of a call that returns, changed by [g]. *)
Definition outcome_map {A B : Type} (g : A -> B) (m : outcome A) : outcome B :=
  match m with
  | Returned a => Returned (g a)
  | Raised => Raised
  end.

Section StoreCodec.
Context {codec : Codecs}.
Import Store.

(** The record a line of the file stands for, if any (lines 340-346). *)
Definition decode_line (line : string) : list json :=
  let line := PyStr.strip line in
  if PyStr.nonempty line then
    match json_loads line with
    | Some v => [v]
    | None => []
    end
  else [].



(** The records of a text in the order of its lines. *)
Definition text_items (text : string) : list json :=
  read_loop [] (readlines text).

(** The records of the file in the order of its lines; the read raises
    when the bytes are not UTF-8. *)
Definition stored_items (f : file) : outcome (list json) :=
  match f with
  | None => Returned []
  | Some bytes =>
      match utf8_decode bytes with
      | None => Raised
      | Some text => Returned (text_items text)
      end
  end.

(** The serialised record fits on one line and is read back as the record. *)
Definition stored_as_line (d : json) : Prop :=
  StoreFacts.line_free (json_dumps d) = true
  /\ PyStr.nonempty (PyStr.strip (json_dumps d)) = true
  /\ json_loads (PyStr.strip (json_dumps d)) = Some d.

Lemma read_loop_flat (items : list json) (lines : list string) :
  read_loop items lines = (items ++ flat_map decode_line lines)%list.
Proof.
  revert items. induction lines as [|line rest IH]; intros items; cbn [read_loop flat_map].
  - now rewrite app_nil_r.
  - unfold decode_line. destruct (PyStr.nonempty (PyStr.strip line)); cbn [negb].
    + destruct (json_loads (PyStr.strip line)) as [v|]; rewrite IH.
      * now rewrite <- app_assoc.
      * reflexivity.
    + now rewrite IH.
Qed.


Lemma read_reports_items (f : file) (limit : Z) :
  _read_reports f limit
  = outcome_map (fun items => slice_to limit (rev items)) (stored_items f).
Proof.
  destruct f as [bytes|]; cbn [_read_reports stored_items outcome_map].
  - destruct (utf8_decode bytes); reflexivity.
  - unfold slice_to. cbn [rev]. destruct (0 <=? limit)%Z; now rewrite firstn_nil.
Qed.


(** The text of a file that ends with a line break ends with one. *)
Lemma terminated_decoded (bytes : list byte) (text : string) :
  terminated (Some bytes) -> utf8_decode bytes = Some text -> terminated_text text.
Proof.
  intros [-> | [b ->]] D.
  - rewrite utf8_decode_nil in D. injection D as <-. now left.
  - rewrite <- utf8_encode_newline in D.
    destruct (utf8_decode b) as [tb|] eqn:E.
    + rewrite (utf8_decode_app b tb _ E) in D. injection D as <-.
      right. now exists tb.
    + rewrite (utf8_decode_app_error b _ E) in D. discriminate D.
Qed.

(** [_append_jsonl] leaves a file that ends with a line break. *)
Lemma append_terminated (f : file) (d : json) : terminated (_append_jsonl f d).
Proof.
  cbn [_append_jsonl terminated]. right.
  exists (file_bytes f ++ utf8_encode (json_dumps d))%list.
  rewrite utf8_encode_app. change (utf8_encode newline) with
    (utf8_encode (String (ascii_of_nat 10) EmptyString)).
  now rewrite utf8_encode_newline, app_assoc.
Qed.

(** What [_append_jsonl] makes of the text of the file. *)
Lemma append_decoded (f : file) (d : json) :
  utf8_decode (file_bytes (_append_jsonl f d))
  = match utf8_decode (file_bytes f) with
    | Some text => Some (text ++ json_dumps d ++ newline)%string
    | None => None
    end.
Proof.
  cbn [_append_jsonl file_bytes].
  destruct (utf8_decode (file_bytes f)) as [text|] eqn:E.
  - now apply utf8_decode_app.
  - now apply utf8_decode_app_error.
Qed.


(** A line written after a text that is empty or ends with a line break
    adds its record after those of the text. *)
Lemma text_items_append (text : string) (d : json) :
  terminated_text text -> stored_as_line d ->
  text_items (text ++ json_dumps d ++ newline) = (text_items text ++ [d])%list.
Proof.
  intros T (L & N & R). unfold text_items.
  assert (D : decode_line (json_dumps d ++ newline) = [d]).
  { unfold decode_line. now rewrite StoreFacts.strip_app_newline, N, R. }
  destruct T as [-> | [t ->]].
  - cbn [append]. rewrite (StoreFacts.readlines_one_line _ L), read_loop_flat.
    cbn [flat_map readlines read_loop]. now rewrite D.
  - rewrite StoreFacts.readlines_after_newline, (StoreFacts.readlines_one_line _ L).
    rewrite !read_loop_flat, flat_map_app. cbn [flat_map app].
    now rewrite D, app_nil_r.
Qed.

(** Appending to a file that ends with a line break adds the record after
    the stored ones; a file that cannot be read still cannot. *)
Lemma stored_items_append (f : file) (d : json) :
  terminated f -> stored_as_line d ->
  stored_items (_append_jsonl f d)
  = outcome_map (fun items => items ++ [d])%list (stored_items f).
Proof.
  intros T S. pose proof (append_decoded f d) as A.
  cbn [_append_jsonl file_bytes stored_items] in *.
  destruct f as [bytes|]; cbn [file_bytes stored_items] in *.
  - destruct (utf8_decode bytes) as [text|] eqn:E; rewrite A; cbn [outcome_map];
      [|reflexivity].
    rewrite text_items_append; eauto using terminated_decoded.
  - rewrite utf8_decode_nil in A. rewrite A. cbn [outcome_map].
    rewrite text_items_append; [reflexivity | now left | exact S].
Qed.

(** The store after the appends of [records], the earliest first. *)
Definition append_all (f : file) (records : list json) : file :=
  fold_left _append_jsonl records f.


Lemma decodable_stored (f : file) :
  decodable f -> exists items, stored_items f = Returned items.
Proof.
  destruct f as [bytes|]; cbn [decodable stored_items]; [|eauto].
  intros [text ->]. eauto.
Qed.


End StoreCodec.


Example read_not_utf8 :
  Store._read_reports (codec := SampleCodec.codec) Samples.not_utf8_file 100 = Raised.
Proof. vm_compute. reflexivity. Qed.










(** ** The report a request persists *)

(** C10: the report returned by [trigger] is the record appended to the
    report file: the file after the request is the file before it followed
    by one line, the JSON text of the object whose seven fields have the
    values of the returned report; its URL and note are those of the
    request and its source is "linkedin", "x" or "unknown".  When the file
    before the request could be read and ended with a line break, and the
    record is stored as one line, the newest record of the list after the
    request is that object. *)
Theorem trigger_persists {codec : Codecs} (env : Env) (req : Trigger) (w : World) :
  let r := fst (trigger env req w) in
  let record := JObj [("timestamp", JStr (timestamp r));
                      ("post_url", JStr (post_url r));
                      ("user_note", JStr (user_note r));
                      ("source", JStr (source r));
                      ("post_text", JStr (post_text r));
                      ("query", JStr (query r));
                      ("compound_answer", JStr (compound_answer r))] in
  reports (snd (trigger env req w))
  = Some (match reports w with
          | Some bytes => bytes
          | None => []
          end ++ utf8_encode (json_dumps record ++ Store.newline))%list
  /\ post_url r = url req
  /\ user_note r = note req
  /\ (source r = "linkedin" \/ source r = "x" \/ source r = "unknown")
  /\ (terminated (reports w) -> decodable (reports w) -> stored_as_line record ->
      Store._read_reports (reports (snd (trigger env req w))) 1 = Returned [record]).
Proof.
  cbv zeta.
  assert (W : reports (snd (trigger env req w))
              = Store._append_jsonl (reports w) (report_dict (fst (trigger env req w)))).
  { rewrite trigger_run. cbv zeta. cbn [fst snd reports].
    now rewrite compound_search_reports, query_step_reports, extract_step_reports. }
  split; [rewrite W; destruct (reports w); reflexivity|].
  split; [rewrite trigger_run; reflexivity|].
  split; [rewrite trigger_run; reflexivity|].
  split; [rewrite trigger_run; cbv zeta; cbn [fst source]; apply detect_source_range|].
  intros T D S. rewrite W.
  change (JObj _) with (report_dict (fst (trigger env req w))) in *.
  rewrite read_reports_items, stored_items_append by assumption.
  destruct (decodable_stored _ D) as [items ->]. cbn [outcome_map].
  rewrite rev_app_distr. reflexivity.
Qed.

(** [trigger_persists] on a first report: the bytes written and the list
    read back. *)
Lemma trigger_persists_witness :
  let r := fst (trigger (codec := SampleCodec.codec) Samples.env_ok
                        Samples.x_request Samples.world0) in
  reports (snd (trigger (codec := SampleCodec.codec) Samples.env_ok
                        Samples.x_request Samples.world0))
  = Some (SampleCodec.encode (SampleCodec.dumps (report_dict r) ++ Store.newline))
  /\ Store._read_reports (codec := SampleCodec.codec)
       (reports (snd (trigger (codec := SampleCodec.codec) Samples.env_ok
                              Samples.x_request Samples.world0))) 1
     = Returned [report_dict r].
Proof.
  destruct (trigger_persists (codec := SampleCodec.codec) Samples.env_ok
              Samples.x_request Samples.world0) as (B & _ & _ & _ & R).
  split.
  - exact B.
  - apply R.
    + exact I.
    + exact I.
    + repeat split; vm_compute; reflexivity.
Defined.

(** ** The X post extractor *)

(** C8: on a result whose done action carries only white space, the
    extractor returns the empty string, found by the first pattern on the
    string form, where the other strategies return a text that is not
    empty or go on. *)
Lemma x_extractor_returns_empty_string :
  XExtractor.recover (XExtractor.from_result Samples.blank_done_history) = Some EmptyString
  /\ fst (_extract_x_post_with_browser_use Samples.env_blank_done
            "https://x.com/foo/status/1" Samples.world0) = Some EmptyString.
Proof. split; vm_compute; reflexivity. Qed.

Module XExtractorFacts.
Import XExtractor.

(** Case analysis on the outcomes a strategy goes through. *)
Ltac outcomes H :=
  repeat match type of H with
         | context [bind ?m _] => destruct m eqn:?; cbn [bind] in H
         | context [match ?x with _ => _ end] => destruct x eqn:?
         | context [if ?b then _ else _] => destruct b eqn:?
         end;
  try discriminate H.

Lemma stripped_text_nonempty (v : pyval) (s : string) :
  Py.stripped_text v = Some s -> PyStr.nonempty s = true.
Proof.
  destruct v; cbn [Py.stripped_text]; try discriminate.
  destruct (PyStr.nonempty (PyStr.strip s0)) eqn:E; [|discriminate].
  intros H. injection H as <-. exact E.
Qed.

Lemma method1_nonempty (result : pyobj) (s : string) :
  method1 result = Returned (Some s) -> PyStr.nonempty s = true.
Proof.
  unfold method1, Py.print_value. intros H. outcomes H;
    injection H as H; eauto using stripped_text_nonempty.
Qed.

Lemma probe_fields_nonempty (action_result : pyval) (fields : list string) (s : string) :
  probe_fields action_result fields = Returned (Some s) -> PyStr.nonempty s = true.
Proof.
  induction fields as [|field rest IH]; cbn [probe_fields]; [discriminate|].
  destruct (Py.getattr action_result field VNone) as [value|]; cbn [bind]; [|discriminate].
  destruct (Py.truthy value).
  - destruct (Py.stripped_text value) as [t|] eqn:E; [|exact IH].
    intros H. injection H as <-. eauto using stripped_text_nonempty.
  - exact IH.
Qed.

Lemma scan_done_nonempty (items : list pyval) (s : string) :
  scan_done items = Returned (Some s) -> PyStr.nonempty s = true.
Proof.
  induction items as [|action_result rest IH]; cbn [scan_done]; [discriminate|].
  unfold or_else, Py.print_value.
  destruct (Py.getattr action_result "is_done" VNone) as [shown|]; cbn [bind]; [|discriminate].
  destruct (Py.format_ok shown); cbn [bind]; [|discriminate].
  destruct (Py.getattr action_result "is_done" (VBool false)) as [is_done|];
    cbn [bind]; [|discriminate].
  destruct (Py.truthy is_done); cbn [bind]; [|exact IH].
  destruct (probe_fields action_result done_fields) as [[t|]|] eqn:P; cbn [bind].
  - intros H. injection H as <-. eauto using probe_fields_nonempty.
  - exact IH.
  - discriminate.
Qed.

Lemma method3_nonempty (result : pyobj) (s : string) :
  method3 result = Returned (Some s) -> PyStr.nonempty s = true.
Proof.
  unfold method3. intros H. outcomes H.
  injection H as H. eauto using stripped_text_nonempty.
Qed.

Lemma extracted_texts_nonempty (items : list pyval) (texts : list string) :
  extracted_texts items = Returned texts ->
  Forall (fun s => PyStr.nonempty s = true) texts.
Proof.
  revert texts. induction items as [|r rest IH]; intros texts; cbn [extracted_texts].
  - intros H. injection H as <-. constructor.
  - destruct (Py.getattr r "extracted_content" VNone) as [extracted|]; cbn [bind];
      [|discriminate].
    destruct (extracted_texts rest) as [tail|]; cbn [bind]; [|discriminate].
    intros H. injection H as <-.
    destruct (Py.stripped_text extracted) as [t|] eqn:E; auto.
    constructor; eauto using stripped_text_nonempty.
Qed.

Lemma last_nonempty (texts : list string) :
  texts <> [] -> Forall (fun s => PyStr.nonempty s = true) texts ->
  PyStr.nonempty (last texts EmptyString) = true.
Proof.
  induction texts as [|t rest IH]; [congruence|]. intros _ F.
  inversion F as [|? ? Ht Hrest]; subst. destruct rest as [|t' rest']; [exact Ht|].
  apply IH; [discriminate | exact Hrest].
Qed.

Lemma method4_nonempty (items : list pyval) (s : string) :
  method4 items = Returned (Some s) -> PyStr.nonempty s = true.
Proof.
  unfold method4. destruct (extracted_texts items) as [texts|] eqn:E; cbn [bind];
    [|discriminate].
  apply extracted_texts_nonempty in E. destruct texts as [|t rest]; [discriminate|].
  intros H. injection H as <-. apply (last_nonempty (t :: rest)); [discriminate | exact E].
Qed.

(** Where the text of method 5 comes from. *)
Lemma method5_text (result : pyobj) (s : string) :
  method5 result = Returned (Some s) ->
  PyStr.nonempty s = true
  \/ exists text g,
       Py.str result = Returned text
       /\ Regex.search Regex.pattern text = Some g /\ s = PyStr.strip g.
Proof.
  unfold method5. destruct (Py.str result) as [text|]; cbn [bind]; [|discriminate].
  destruct (PyStr.contains "extracted_content" text); [|discriminate].
  destruct (Regex.search Regex.pattern text) as [g|] eqn:S.
  - intros H. injection H as <-. right. exists text, g. auto.
  - destruct (Regex.findall Regex.pattern2 text) as [|m ms]; [discriminate|].
    destruct (PyStr.nonempty (PyStr.strip (last (m :: ms) EmptyString))) eqn:N;
      cbn [andb]; [|discriminate].
    destruct (_ && _); [|discriminate].
    intros H. injection H as <-. left. exact N.
Qed.

(** The extractor never raises to its caller: it gives [None] or a text.
    The text is not empty unless it is the group of the first pattern on
    the string form of the result, stripped. *)
Lemma from_result_text (result : pyobj) (s : string) :
  recover (from_result result) = Some s ->
  PyStr.nonempty s = true
  \/ exists text g,
       Py.str result = Returned text
       /\ Regex.search Regex.pattern text = Some g /\ s = PyStr.strip g.
Proof.
  unfold recover, from_result, or_else.
  destruct (Py.str result) as [text|] eqn:T; cbn [bind]; [|discriminate].
  destruct (method1 result) as [[t|]|] eqn:M1; cbn [bind]; try discriminate.
  { intros H. injection H as <-. left. eauto using method1_nonempty. }
  destruct (gather result) as [all_results|]; cbn [bind]; [|discriminate].
  destruct (Py.iterate all_results) as [items|]; cbn [bind]; [|discriminate].
  destruct (scan_done items) as [[t|]|] eqn:SD; cbn [bind]; try discriminate.
  { intros H. injection H as <-. left. eauto using scan_done_nonempty. }
  destruct (method3 result) as [[t|]|] eqn:M3; cbn [bind]; try discriminate.
  { intros H. injection H as <-. left. eauto using method3_nonempty. }
  destruct (method4 items) as [[t|]|] eqn:M4; cbn [bind]; try discriminate.
  { intros H. injection H as <-. left. eauto using method4_nonempty. }
  destruct (method5 result) as [[t|]|] eqn:M5; try discriminate.
  intros H. injection H as <-. rewrite <- T. eauto using method5_text.
Qed.

(** An object without attributes that is neither callable nor iterable, and
    whose string form does not mention [extracted_content], holds nothing
    the extractor recognises. *)
Lemma bare_result_unrecognised (text : string) :
  PyStr.contains "extracted_content" text = false ->
  recover (from_result (Obj [] None None (Returned text))) = None.
Proof.
  intros C. unfold from_result, or_else, method5. cbn. rewrite C. reflexivity.
Qed.

(** So is a result whose string form cannot be taken. *)
Lemma unprintable_result_unrecognised
      (attrs : list (string * outcome pyval)) (call : option (outcome pyval))
      (iter : option (list pyval)) :
  recover (from_result (Obj attrs call iter Raised)) = None.
Proof. reflexivity. Qed.

End XExtractorFacts.

(** * Further properties of the code *)

Module StrFacts.

Lemma append_nil_r (s : string) : (s ++ "")%string = s.
Proof. induction s as [|c s IH]; cbn; [reflexivity | now rewrite IH]. Qed.

Lemma append_assoc (a b c : string) : ((a ++ b) ++ c)%string = (a ++ b ++ c)%string.
Proof. induction a as [|x a IH]; cbn; [reflexivity | now rewrite IH]. Qed.

Lemma length_append (a b : string) :
  String.length (a ++ b) = String.length a + String.length b.
Proof. induction a as [|x a IH]; cbn; [reflexivity | now rewrite IH]. Qed.

End StrFacts.

(** ** The calls of a request *)

(** The call of the extraction step for a source (lines 453-458). *)
Definition extraction_call (source post_url : string) : api_call :=
  if String.eqb source "x" then AgentCall (task post_url)
  else ChatCall (extract_request post_url).

(** X1: with an API key a request makes exactly three calls, in this
    order: the extraction (the agent for an X URL, the completion with
    "groq/compound-mini" otherwise), the query completion on the extracted
    text and the note, and the streamed answer completion on the query of
    the report; without a key it makes none.  Earlier calls stay in the
    log. *)
Theorem trigger_calls {codec : Codecs} (env : Env) (req : Trigger) (w : World) :
  let r := fst (trigger env req w) in
  calls (snd (trigger env req w))
  = if key_present env
    then (calls w ++ [extraction_call (source r) (url req);
                      ChatCall (query_request (post_text r) (note req));
                      ChatCall (answer_request (query r))])%list
    else calls w.
Proof.
  rewrite trigger_run. cbv zeta. cbn [fst snd calls post_text query source].
  rewrite compound_search_run, query_step_run, shape_query_run, extract_step_run,
    extract_x_run, extract_post_run.
  unfold extraction_call.
  destruct (String.eqb (_detect_source (url req)) "x"), (key_present env);
    cbn [fst snd calls]; rewrite <- ?app_assoc; reflexivity.
Qed.

(** ** The answer synthesizer *)

(** The text a chunk adds to the answer: the content of the delta of its
    first choice. *)
Definition delta_text (c : outcome (list choice)) : string :=
  match c with
  | Returned (Some delta :: _) => delta
  | _ => EmptyString
  end.

(** [''.join] of the texts of the chunks. *)
Definition joined (chunks : list (outcome (list choice))) : string :=
  fold_right (fun c acc => (delta_text c ++ acc)%string) EmptyString chunks.

(** A chunk that arrives with at least one choice. *)
Definition delivered (c : outcome (list choice)) : Prop :=
  exists ch rest, c = Returned (ch :: rest).

Lemma join_deltas_delivered (chunks : list (outcome (list choice))) (buf : string) :
  Forall delivered chunks ->
  join_deltas buf chunks = Returned (buf ++ joined chunks)%string.
Proof.
  intros F. revert buf. induction F as [|c rest (ch & more & ->) _ IH]; intros buf.
  - cbn. now rewrite StrFacts.append_nil_r.
  - destruct ch as [delta|]; cbn [join_deltas joined fold_right delta_text].
    + rewrite IH. destruct delta as [|x delta]; cbn [PyStr.nonempty].
      * reflexivity.
      * now rewrite StrFacts.append_assoc.
    + now rewrite IH.
Qed.

(** X2: with an API key, when the stream delivers every chunk with a
    choice, the answer is the texts of the deltas of the first choices
    joined in the order of arrival. *)
Theorem compound_search_joins (env : Env) (query : string)
        (w : World) (chunks : list (outcome (list choice))) :
  key_present env = true ->
  chat_create env (answer_request query) = Returned (Chunks chunks) ->
  Forall delivered chunks ->
  fst (_compound_search env query w) = joined chunks.
Proof.
  intros K C F. rewrite compound_search_run, K, C. cbn [fst].
  now rewrite (join_deltas_delivered chunks EmptyString F).
Qed.

Lemma compound_search_joins_witness :
  fst (_compound_search Samples.env_ok "q" Samples.world0)
  = "An answer".
Proof.
  apply (compound_search_joins Samples.env_ok "q" Samples.world0
           [Returned [Some "An "]; Returned [None]; Returned [Some "answer"]]).
  - reflexivity.
  - reflexivity.
  - repeat constructor; eexists; eexists; reflexivity.
Defined.

(** X3: when the stream breaks at some chunk (the iteration raises, or the
    chunk has no choice), the answer is the empty string: the text of the
    chunks received before the break is dropped. *)
Theorem compound_search_drops_partial_answer (env : Env)
        (query : string) (w : World)
        (before after : list (outcome (list choice))) (c : outcome (list choice)) :
  chat_create env (answer_request query) = Returned (Chunks (before ++ c :: after)) ->
  broken c ->
  fst (_compound_search env query w) = EmptyString.
Proof.
  intros C B. rewrite compound_search_run. destruct (key_present env); [|reflexivity].
  rewrite C. cbn [fst]. rewrite join_deltas_broken; [reflexivity|].
  apply Exists_app. right. now constructor.
Qed.

Lemma compound_search_drops_partial_answer_witness :
  fst (_compound_search
         {| GROQ_API_KEY := Some "gsk_test";
            chat_create := fun _ => Returned (Chunks [Returned [Some "An "]; Raised]);
            agent_run := fun _ => Raised;
            utcnow_isoformat := "2025-01-01T00:00:00.000000" |}
         "q" Samples.world0)
  = EmptyString.
Proof.
  apply (compound_search_drops_partial_answer _ "q" Samples.world0
           [Returned [Some "An "]] [] Raised).
  - reflexivity.
  - left. reflexivity.
Defined.

(** ** Completions that succeed *)

(** X4: with an API key, when the query completion answers with a JSON
    object whose "query" is the string [q], the query of the step is [q]
    itself, unchanged, unless [q] is empty, in which case it is the
    fallback built from the note and the source. *)
Theorem query_step_uses_completion {codec : Codecs} (env : Env)
        (post_text note source : string) (w : World) (q : string) :
  key_present env = true ->
  completion_success "query" (chat_create env (query_request post_text note)) q ->
  fst (query_step env post_text note source w)
  = if PyStr.nonempty q then q else (note ++ " (source: " ++ source ++ ")")%string.
Proof.
  intros K S. apply json_answer_some in S.
  rewrite query_step_run, shape_query_run, K. cbn [fst]. rewrite S.
  unfold or_str, fallback_query. reflexivity.
Qed.

Lemma query_step_uses_completion_witness :
  fst (query_step (codec := SampleCodec.codec) Samples.env_ok
                  "Hello world" "summarize" "linkedin" Samples.world0)
  = "hello world research".
Proof.
  apply (query_step_uses_completion (codec := SampleCodec.codec) Samples.env_ok
           "Hello world" "summarize" "linkedin" Samples.world0 "hello world research").
  - reflexivity.
  - eexists; eexists; eexists. repeat split; vm_compute; reflexivity.
Defined.

(** X5: for the source "linkedin" or "unknown", with an API key, when the
    extraction completion answers with a JSON object whose "post_text" is
    the string [t], the extracted text is [t] as it stands: it is not
    stripped. *)
Theorem extract_step_uses_completion {codec : Codecs} (env : Env)
        (source post_url : string) (w : World) (t : string) :
  source = "linkedin" \/ source = "unknown" ->
  key_present env = true ->
  completion_success "post_text" (chat_create env (extract_request post_url)) t ->
  fst (extract_step env source post_url w) = t.
Proof.
  intros S K C. apply json_answer_some in C.
  assert (X : String.eqb source "x" = false) by (destruct S as [-> | ->]; reflexivity).
  rewrite extract_step_run, X, extract_post_run, K. cbn [fst]. rewrite C.
  unfold or_str. destruct t; reflexivity.
Qed.

Lemma extract_step_uses_completion_witness :
  fst (extract_step (codec := SampleCodec.codec) Samples.env_ok "linkedin"
                    "https://www.linkedin.com/posts/foo-1" Samples.world0)
  = "Hello world".
Proof.
  apply (extract_step_uses_completion (codec := SampleCodec.codec) Samples.env_ok
           "linkedin" "https://www.linkedin.com/posts/foo-1" Samples.world0 "Hello world").
  - left. reflexivity.
  - reflexivity.
  - eexists; eexists; eexists. repeat split; vm_compute; reflexivity.
Defined.

(** ** More on the report store *)



(** X7: on a file that is absent, empty or ends with a line break, an
    append of a record that is stored as one line puts it at the head of
    the list and leaves the others as they were: the list with limit
    [k + 1] after the append is the record followed by the list with limit
    [k] before it, and it raises when the list before it does. *)
Theorem append_then_list_shifts {codec : Codecs} (f : Store.file) (d : json) (k : Z) :
  terminated f -> stored_as_line d -> (0 <= k)%Z ->
  Store._read_reports (Store._append_jsonl f d) (k + 1)
  = outcome_map (cons d) (Store._read_reports f k).
Proof.
  intros T Hd K. rewrite !read_reports_items, stored_items_append by assumption.
  destruct (stored_items f) as [items|]; cbn [outcome_map]; [|reflexivity].
  rewrite rev_app_distr. unfold Store.slice_to.
  destruct (0 <=? k + 1)%Z eqn:E1; [|apply Z.leb_gt in E1; lia].
  destruct (0 <=? k)%Z eqn:E2; [|apply Z.leb_gt in E2; lia].
  replace (Z.to_nat (k + 1)) with (S (Z.to_nat k)) by lia. reflexivity.
Qed.

Lemma append_then_list_shifts_witness :
  Store._read_reports (codec := SampleCodec.codec)
    (Store._append_jsonl (codec := SampleCodec.codec)
       (append_all (codec := SampleCodec.codec) None [Samples.record1; Samples.record2])
       Samples.record3) (1 + 1)
  = Returned [Samples.record3; Samples.record2].
Proof.
  rewrite (append_then_list_shifts (codec := SampleCodec.codec)).
  - vm_compute. reflexivity.
  - exact (append_terminated (codec := SampleCodec.codec)
             (Store._append_jsonl (codec := SampleCodec.codec) None Samples.record1)
             Samples.record2).
  - repeat split; vm_compute; reflexivity.
  - lia.
Defined.




Lemma api_reports_items {codec : Codecs} (f : Store.file) :
  Store.api_reports f = outcome_map (fun items => firstn 200 (rev items)) (stored_items f).
Proof. unfold Store.api_reports. rewrite read_reports_items. reflexivity. Qed.

(** X9: [POST /trigger] followed by [GET /reports]: on a report file that
    is absent, empty or ends with a line break, and when the report is
    stored as one line, the reports listed after the request are the new
    report followed by the first 199 of those listed before, and the list
    raises when it did before. *)
Theorem trigger_then_reports {codec : Codecs} (env : Env) (req : Trigger) (w : World) :
  terminated (reports w) ->
  stored_as_line (report_dict (fst (trigger env req w))) ->
  Store.api_reports (reports (snd (trigger env req w)))
  = outcome_map (fun before => report_dict (fst (trigger env req w)) :: firstn 199 before)
                (Store.api_reports (reports w)).
Proof.
  intros T Hd. rewrite trigger_run in *. cbv zeta in *. cbn [fst snd reports] in *.
  rewrite compound_search_reports, query_step_reports, extract_step_reports.
  rewrite !api_reports_items, stored_items_append by assumption.
  destruct (stored_items (reports w)) as [items|]; cbn [outcome_map]; [|reflexivity].
  rewrite rev_app_distr, firstn_firstn.
  change 200 with (S 199). reflexivity.
Qed.

Lemma trigger_then_reports_witness :
  Store.api_reports (codec := SampleCodec.codec)
    (reports (snd (trigger (codec := SampleCodec.codec) Samples.env_ok
                           Samples.x_request Samples.world0)))
  = Returned [report_dict (fst (trigger (codec := SampleCodec.codec) Samples.env_ok
                                        Samples.x_request Samples.world0))].
Proof.
  rewrite (trigger_then_reports (codec := SampleCodec.codec)).
  - reflexivity.
  - exact I.
  - repeat split; vm_compute; reflexivity.
Defined.

(** The text of a file made of [lines], each followed by [ending]. *)
Definition lines_text (ending : string) (lines : list string) : string :=
  fold_right (fun l acc => (l ++ ending ++ acc)%string) EmptyString lines.

(** A carriage return followed by a line break. *)
Definition crlf : string := String Store.CR Store.newline.

Lemma readlines_lf_line (s rest : string) :
  StoreFacts.line_free s = true ->
  Store.readlines (s ++ Store.newline ++ rest)
  = (s ++ Store.newline)%string :: Store.readlines rest.
Proof.
  induction s as [|c s IH]; [reflexivity|].
  cbn [StoreFacts.line_free]. intros H.
  apply andb_true_iff in H as [H Hs]. apply andb_true_iff in H as [Hl Hc].
  apply negb_true_iff in Hl, Hc.
  cbn [append Store.readlines]. rewrite Hl, Hc, (IH Hs). reflexivity.
Qed.

Lemma readlines_crlf_line (s rest : string) :
  StoreFacts.line_free s = true ->
  Store.readlines (s ++ crlf ++ rest)
  = (s ++ Store.newline)%string :: Store.readlines rest.
Proof.
  induction s as [|c s IH]; [reflexivity|].
  cbn [StoreFacts.line_free]. intros H.
  apply andb_true_iff in H as [H Hs]. apply andb_true_iff in H as [Hl Hc].
  apply negb_true_iff in Hl, Hc.
  cbn [append Store.readlines]. rewrite Hl, Hc.
  rewrite (IH Hs). reflexivity.
Qed.

Lemma readlines_lines_text (ending : string) (lines : list string) :
  ending = Store.newline \/ ending = crlf ->
  Forall (fun l => StoreFacts.line_free l = true) lines ->
  Store.readlines (lines_text ending lines)
  = map (fun l => (l ++ Store.newline)%string) lines.
Proof.
  intros E F. induction F as [|l rest Hl _ IH]; [reflexivity|].
  cbn [lines_text fold_right map]. fold (lines_text ending rest).
  destruct E as [-> | ->].
  - rewrite readlines_lf_line, IH by assumption. reflexivity.
  - rewrite readlines_crlf_line, IH by assumption. reflexivity.
Qed.

(** X10: a report file whose lines end with a carriage return and a line
    break is listed like the file with the same lines ending with a line
    break alone. *)
Theorem read_reports_crlf {codec : Codecs} (lines : list string) (limit : Z) :
  Forall (fun l => StoreFacts.line_free l = true) lines ->
  Store._read_reports (Some (utf8_encode (lines_text crlf lines))) limit
  = Store._read_reports (Some (utf8_encode (lines_text Store.newline lines))) limit.
Proof.
  intros F. cbn [Store._read_reports]. rewrite !utf8_decode_encode.
  rewrite !readlines_lines_text by auto. reflexivity.
Qed.

Lemma read_reports_crlf_witness :
  Store._read_reports (codec := SampleCodec.codec)
    (Some (SampleCodec.encode
             (lines_text crlf [SampleCodec.dumps Samples.record1; "not json";
                               SampleCodec.dumps Samples.record2]))) 100
  = Returned [Samples.record2; Samples.record1].
Proof.
  rewrite (read_reports_crlf (codec := SampleCodec.codec)).
  - vm_compute. reflexivity.
  - repeat constructor.
Defined.

(** ** More on the source classifier *)

Lemma occurs_ci_in_context (needle url pre post : string) :
  occurs_ci needle url -> occurs_ci needle (pre ++ url ++ post).
Proof.
  intros (a & mid & b & -> & L).
  exists (pre ++ a)%string, mid, (b ++ post)%string. split; [|exact L].
  now rewrite !StrFacts.append_assoc.
Qed.

(** X11: text put before and after a URL never turns a recognised source
    into "unknown": a URL classified "linkedin" stays "linkedin", and a URL
    classified "x" stays "x" or becomes "linkedin". *)
Theorem detect_source_in_context (url pre post : string) :
  (_detect_source url = "linkedin" ->
   _detect_source (pre ++ url ++ post) = "linkedin")
  /\ (_detect_source url = "x" ->
      _detect_source (pre ++ url ++ post) = "x"
      \/ _detect_source (pre ++ url ++ post) = "linkedin").
Proof.
  split; intros H.
  - destruct (detect_source_cases url) as [[L _]|[(_ & _ & E)|(_ & _ & E)]];
      try (rewrite E in H; discriminate H).
    apply (occurs_ci_in_context _ _ pre post) in L.
    destruct (detect_source_cases (pre ++ url ++ post))
      as [[_ E]|[(N & _)|(N & _)]]; [exact E | contradiction | contradiction].
  - destruct (detect_source_cases url) as [[_ E]|[(_ & X & _)|(_ & _ & E)]];
      try (rewrite E in H; discriminate H).
    assert (X' : is_x (pre ++ url ++ post)).
    { destruct X as [X|X]; [left|right]; now apply occurs_ci_in_context. }
    destruct (detect_source_cases (pre ++ url ++ post))
      as [[_ E]|[(_ & _ & E)|(_ & N & _)]]; [now right | now left | contradiction].
Qed.

Lemma detect_source_in_context_witness :
  _detect_source ("https://www.netfli" ++ "x.com" ++ "/title/1") = "x"
  \/ _detect_source ("https://www.netfli" ++ "x.com" ++ "/title/1") = "linkedin".
Proof.
  exact (proj2 (detect_source_in_context "x.com" "https://www.netfli" "/title/1") eq_refl).
Defined.

(** ** More on the X post extractor *)

Module StripFacts.
Import PyStr.

Lemma lstrip_head (s : string) (c : ascii) (t : string) :
  lstrip s = String c t -> is_space c = false.
Proof.
  induction s as [|x s IH]; cbn [lstrip]; [discriminate|].
  destruct (is_space x) eqn:E; [exact IH|].
  intros H. injection H as <- _. exact E.
Qed.

Lemma rstrip_cons (c : ascii) (t : string) :
  is_space c = false -> rstrip (String c t) = String c (rstrip t).
Proof. intros E. cbn [rstrip]. rewrite E. destruct (rstrip t); reflexivity. Qed.

Lemma rstrip_step (c : ascii) (s : string) :
  rstrip (String c s)
  = match rstrip s with
    | EmptyString => if is_space c then EmptyString else String c EmptyString
    | r => String c r
    end.
Proof. reflexivity. Qed.

Lemma rstrip_idem (s : string) : rstrip (rstrip s) = rstrip s.
Proof.
  induction s as [|c s IH]; [reflexivity|]. rewrite rstrip_step.
  destruct (rstrip s) as [|x r] eqn:E.
  - destruct (is_space c) eqn:Ec; [reflexivity|]. rewrite rstrip_step, Ec. reflexivity.
  - rewrite rstrip_step, IH. reflexivity.
Qed.

(** Stripping twice is stripping once. *)
Lemma strip_idem (s : string) : strip (strip s) = strip s.
Proof.
  unfold strip. destruct (lstrip s) as [|c t] eqn:E; [reflexivity|].
  apply lstrip_head in E. rewrite (rstrip_cons c t E).
  cbn [lstrip]. rewrite E, (rstrip_cons c _ E). now rewrite rstrip_idem.
Qed.

End StripFacts.

Module XExtractorMore.
Import XExtractor.

Section Texts.
(** A property of every stripped text. *)
Variable P : string -> Prop.
Hypothesis P_strip : forall s, P (PyStr.strip s).

Lemma stripped_text_P (v : pyval) (s : string) : Py.stripped_text v = Some s -> P s.
Proof.
  destruct v; cbn [Py.stripped_text]; try discriminate.
  destruct (PyStr.nonempty (PyStr.strip s0)); [|discriminate].
  intros H. injection H as <-. apply P_strip.
Qed.

Lemma method1_P (result : pyobj) (s : string) :
  method1 result = Returned (Some s) -> P s.
Proof.
  unfold method1, Py.print_value. intros H. XExtractorFacts.outcomes H;
    injection H as H; eauto using stripped_text_P.
Qed.

Lemma probe_fields_P (action_result : pyval) (fields : list string) (s : string) :
  probe_fields action_result fields = Returned (Some s) -> P s.
Proof.
  induction fields as [|field rest IH]; cbn [probe_fields]; [discriminate|].
  destruct (Py.getattr action_result field VNone) as [value|]; cbn [bind]; [|discriminate].
  destruct (Py.truthy value); [|exact IH].
  destruct (Py.stripped_text value) as [t|] eqn:E; [|exact IH].
  intros H. injection H as <-. eauto using stripped_text_P.
Qed.

Lemma scan_done_P (items : list pyval) (s : string) :
  scan_done items = Returned (Some s) -> P s.
Proof.
  induction items as [|action_result rest IH]; cbn [scan_done]; [discriminate|].
  unfold or_else, Py.print_value.
  destruct (Py.getattr action_result "is_done" VNone) as [shown|]; cbn [bind]; [|discriminate].
  destruct (Py.format_ok shown); cbn [bind]; [|discriminate].
  destruct (Py.getattr action_result "is_done" (VBool false)) as [is_done|];
    cbn [bind]; [|discriminate].
  destruct (Py.truthy is_done); cbn [bind]; [|exact IH].
  destruct (probe_fields action_result done_fields) as [[t|]|] eqn:E; cbn [bind].
  - intros H. injection H as <-. eauto using probe_fields_P.
  - exact IH.
  - discriminate.
Qed.

Lemma method3_P (result : pyobj) (s : string) :
  method3 result = Returned (Some s) -> P s.
Proof.
  unfold method3. intros H. XExtractorFacts.outcomes H.
  injection H as H. eauto using stripped_text_P.
Qed.

Lemma extracted_texts_P (items : list pyval) (texts : list string) :
  extracted_texts items = Returned texts -> Forall P texts.
Proof.
  revert texts. induction items as [|r rest IH]; intros texts; cbn [extracted_texts].
  - intros H. injection H as <-. constructor.
  - destruct (Py.getattr r "extracted_content" VNone) as [extracted|]; cbn [bind];
      [|discriminate].
    destruct (extracted_texts rest) as [tail|]; cbn [bind]; [|discriminate].
    intros H. injection H as <-.
    destruct (Py.stripped_text extracted) as [t|] eqn:E; auto.
    constructor; eauto using stripped_text_P.
Qed.

Lemma last_P (texts : list string) :
  texts <> [] -> Forall P texts -> P (last texts EmptyString).
Proof.
  induction texts as [|t rest IH]; [congruence|]. intros _ F.
  inversion F as [|? ? Ht Hrest]; subst. destruct rest as [|t' rest']; [exact Ht|].
  apply IH; [discriminate | exact Hrest].
Qed.

Lemma method4_P (items : list pyval) (s : string) :
  method4 items = Returned (Some s) -> P s.
Proof.
  unfold method4. destruct (extracted_texts items) as [texts|] eqn:E; cbn [bind];
    [|discriminate].
  apply extracted_texts_P in E. destruct texts as [|t rest]; [discriminate|].
  intros H. injection H as <-. apply (last_P (t :: rest)); [discriminate | exact E].
Qed.

Lemma method5_P (result : pyobj) (s : string) :
  method5 result = Returned (Some s) -> P s.
Proof.
  unfold method5. destruct (Py.str result) as [text|]; cbn [bind]; [|discriminate].
  destruct (PyStr.contains "extracted_content" text); [|discriminate].
  destruct (Regex.search Regex.pattern text) as [g|].
  - intros H. injection H as <-. apply P_strip.
  - destruct (Regex.findall Regex.pattern2 text) as [|m ms]; [discriminate|].
    destruct (_ && _); [|discriminate].
    intros H. injection H as <-. apply P_strip.
Qed.

Lemma from_result_P (result : pyobj) (s : string) :
  recover (from_result result) = Some s -> P s.
Proof.
  unfold recover, from_result, or_else.
  destruct (Py.str result) as [text|]; cbn [bind]; [|discriminate].
  destruct (method1 result) as [[t|]|] eqn:M1; cbn [bind]; try discriminate.
  { intros H. injection H as <-. eauto using method1_P. }
  destruct (gather result) as [all_results|]; cbn [bind]; [|discriminate].
  destruct (Py.iterate all_results) as [items|]; cbn [bind]; [|discriminate].
  destruct (scan_done items) as [[t|]|] eqn:SD; cbn [bind]; try discriminate.
  { intros H. injection H as <-. eauto using scan_done_P. }
  destruct (method3 result) as [[t|]|] eqn:M3; cbn [bind]; try discriminate.
  { intros H. injection H as <-. eauto using method3_P. }
  destruct (method4 items) as [[t|]|] eqn:M4; cbn [bind]; try discriminate.
  { intros H. injection H as <-. eauto using method4_P. }
  destruct (method5 result) as [[t|]|] eqn:M5; try discriminate.
  intros H. injection H as <-. eauto using method5_P.
Qed.

End Texts.
End XExtractorMore.

(** X12: whatever the agent returns, a text returned by the X post
    extractor has no white space at its start or at its end: stripping it
    again changes nothing. *)
Theorem x_extractor_text_is_stripped (env : Env) (post_url : string) (w : World)
        (s : string) :
  fst (_extract_x_post_with_browser_use env post_url w) = Some s ->
  PyStr.strip s = s.
Proof.
  rewrite extract_x_run. destruct (key_present env); cbn [fst]; [|discriminate].
  destruct (agent_run env (task post_url)) as [result|]; cbn [bind]; [|discriminate].
  apply (XExtractorMore.from_result_P (fun t => PyStr.strip t = t)).
  apply StripFacts.strip_idem.
Qed.

Lemma x_extractor_text_is_stripped_witness :
  fst (_extract_x_post_with_browser_use Samples.env_ok "https://x.com/foo/status/1"
         Samples.world0) = Some "Author: A Tweet: hi"
  /\ PyStr.strip "Author: A Tweet: hi" = "Author: A Tweet: hi".
Proof.
  assert (H : fst (_extract_x_post_with_browser_use Samples.env_ok
                     "https://x.com/foo/status/1" Samples.world0)
              = Some "Author: A Tweet: hi") by (vm_compute; reflexivity).
  split; [exact H|].
  exact (x_extractor_text_is_stripped Samples.env_ok "https://x.com/foo/status/1"
           Samples.world0 _ H).
Defined.

(** The [final_result] of a result gives the string [s]: it is a method
    that returns [s], or an attribute that is [s]. *)
Inductive final_result_gives (attrs : list (string * outcome pyval)) (s : string) : Prop :=
| by_method m_attrs m_iter m_str :
    Py.lookup "final_result" attrs
    = Some (Returned (VObj (Obj m_attrs (Some (Returned (VStr s))) m_iter m_str))) ->
    final_result_gives attrs s
| by_attribute :
    Py.lookup "final_result" attrs = Some (Returned (VStr s)) ->
    final_result_gives attrs s.

(** X13: when the string form of the result can be taken and its
    [final_result] gives a string with something else than white space,
    the extractor returns that string stripped, whatever the iteration,
    the other attributes and the string form hold. *)
Theorem final_result_comes_first (attrs : list (string * outcome pyval))
        (call : option (outcome pyval)) (iter : option (list pyval))
        (text s : string) :
  final_result_gives attrs s ->
  PyStr.nonempty (PyStr.strip s) = true ->
  XExtractor.recover (XExtractor.from_result (Obj attrs call iter (Returned text)))
  = Some (PyStr.strip s).
Proof.
  intros F N.
  unfold XExtractor.from_result, XExtractor.or_else, XExtractor.method1,
    Py.hasattr, Py.getattr.
  cbn [Py.str bind Py.attrs_of].
  destruct F as [m_attrs m_iter m_str L | L]; rewrite L; cbn [bind Py.call_of].
  - cbn [Py.format_ok Py.stripped_text]. rewrite N. reflexivity.
  - unfold Py.print_value. cbn [Py.format_ok bind Py.stripped_text]. rewrite N. reflexivity.
Qed.

Lemma final_result_comes_first_witness :
  XExtractor.recover
    (XExtractor.from_result
       (Obj [("final_result", Returned (Samples.bound_method (VStr " Tweet: hi ")));
             ("extracted_content", Returned (VStr "other"))]
            None (Some [Samples.blank_done_action])
            (Returned "AgentHistoryList(extracted_content='third')")))
  = Some "Tweet: hi".
Proof.
  apply (final_result_comes_first _ None _ _ " Tweet: hi ").
  - eapply by_method. reflexivity.
  - reflexivity.
Defined.

(** ** The patterns of the extractor *)

Module RegexFacts.
Import Regex.

(** Every character of [s] is in the class [cc]. *)
Fixpoint all_in (cc : cclass) (s : string) : bool :=
  match s with
  | EmptyString => true
  | String c s' => cc_match cc c && all_in cc s'
  end.

Lemma skip_lit_sound (l s s' : string) :
  skip_lit l s = Some s' -> s = (l ++ s')%string.
Proof.
  revert s. induction l as [|a l IH]; intros s; cbn [skip_lit].
  - intros H. injection H as <-. reflexivity.
  - destruct s as [|b s]; [discriminate|].
    destruct (Ascii.eqb a b) eqn:E; [|discriminate].
    apply Ascii.eqb_eq in E. subst b. intros H. cbn. now rewrite (IH _ H).
Qed.

Lemma take_app (a b : string) :
  take (String.length (a ++ b) - String.length b) (a ++ b) = a.
Proof.
  rewrite StrFacts.length_append, Nat.add_sub.
  induction a as [|c a IH]; cbn.
  - destruct b; reflexivity.
  - now rewrite IH.
Qed.

Section Sound.
Context {R : Type}.

Lemma lazy_star_sound (cc : cclass) (k : string -> option R) (s : string) (r : R) :
  lazy_star cc k s = Some r ->
  exists a b, s = (a ++ b)%string /\ all_in cc a = true /\ k b = Some r.
Proof.
  induction s as [|c s IH].
  - cbn [lazy_star]. destruct (k EmptyString) as [r'|] eqn:K; [|discriminate].
    intros H. injection H as <-. exists EmptyString, EmptyString. auto.
  - cbn [lazy_star]. destruct (k (String c s)) as [r'|] eqn:K.
    + intros H. injection H as <-. exists EmptyString, (String c s). auto.
    + destruct (cc_match cc c) eqn:M; [|discriminate].
      intros H. destruct (IH H) as (a & b & -> & A & Kb).
      exists (String c a), b. cbn [all_in append]. rewrite M, A. auto.
Qed.

Lemma greedy_star_sound (cc : cclass) (k : string -> option R) (s : string) (r : R) :
  greedy_star cc k s = Some r ->
  exists a b, s = (a ++ b)%string /\ all_in cc a = true /\ k b = Some r.
Proof.
  induction s as [|c s IH]; cbn [greedy_star].
  - intros H. exists EmptyString, EmptyString. auto.
  - destruct (cc_match cc c) eqn:M.
    + destruct (greedy_star cc k s) as [r'|] eqn:G.
      * intros H. injection H as <-. destruct (IH eq_refl) as (a & b & -> & A & Kb).
        exists (String c a), b. cbn [all_in append]. rewrite M, A. auto.
      * intros H. exists EmptyString, (String c s). auto.
    + intros H. exists EmptyString, (String c s). auto.
Qed.

Lemma greedy_plus_sound (cc : cclass) (k : string -> option R) (s : string) (r : R) :
  greedy_plus cc k s = Some r ->
  exists a b, s = (a ++ b)%string /\ a <> EmptyString /\ all_in cc a = true
              /\ k b = Some r.
Proof.
  unfold greedy_plus. destruct s as [|c s]; [discriminate|].
  destruct (cc_match cc c) eqn:M; [|discriminate].
  intros H. apply greedy_star_sound in H as (a & b & -> & A & Kb).
  exists (String c a), b. cbn [all_in append]. rewrite M, A.
  repeat split; auto. discriminate.
Qed.

(** What a match of the group between quotes consumes. *)
Lemma quoted_group_sound (k : string -> option string -> option R) (s : string)
      (cap : option string) (r : R) :
  run quoted_group k s cap = Some r ->
  exists g rest,
    s = ("extracted_content=" ++ String quote g ++ String quote rest)%string
    /\ g <> EmptyString /\ all_in (NotChar quote) g = true
    /\ k rest (Some g) = Some r.
Proof.
  unfold quoted_group. cbn [run].
  destruct (skip_lit _ s) as [s1|] eqn:L1; [|discriminate].
  apply skip_lit_sound in L1. intros H.
  apply greedy_plus_sound in H as (g & b & -> & G & A & H).
  destruct (skip_lit _ b) as [rest|] eqn:L2; [|discriminate].
  apply skip_lit_sound in L2. subst b. rewrite take_app in H.
  exists g, rest. repeat split; auto.
Qed.

End Sound.

Lemma search_sound (r : regex) (s g : string) :
  search r s = Some g ->
  exists pre s' rest, s = (pre ++ s')%string /\ match_here r s' = Some (g, rest).
Proof.
  induction s as [|c s IH]; cbn [search].
  - destruct (match_here r EmptyString) as [[g' rest]|] eqn:M; [|discriminate].
    intros H. injection H as <-. exists EmptyString, EmptyString, rest. auto.
  - destruct (match_here r (String c s)) as [[g' rest]|] eqn:M.
    + intros H. injection H as <-. exists EmptyString, (String c s), rest. auto.
    + intros H. destruct (IH H) as (pre & s' & rest & -> & M').
      exists (String c pre), s', rest. auto.
Qed.

Lemma findall_from_sound (r : regex) (s : string) :
  forall skip g, In g (findall_from r skip s) ->
  exists pre s' rest, s = (pre ++ s')%string /\ match_here r s' = Some (g, rest).
Proof.
  assert (Step : forall c t g,
             (exists pre s' rest, t = (pre ++ s')%string /\ match_here r s' = Some (g, rest)) ->
             exists pre s' rest, String c t = (pre ++ s')%string
                                 /\ match_here r s' = Some (g, rest)).
  { intros c t g (pre & s' & rest & -> & M). exists (String c pre), s', rest. auto. }
  induction s as [|c s IH]; intros skip g.
  - destruct skip; cbn [findall_from]; [|intros []].
    destruct (match_here r EmptyString) as [[g' rest]|] eqn:M; [|intros []].
    intros [<-|[]]. exists EmptyString, EmptyString, rest. auto.
  - destruct skip; cbn [findall_from].
    + destruct (match_here r (String c s)) as [[g' rest]|] eqn:M.
      * intros [<-|H]; [exists EmptyString, (String c s), rest; auto|].
        apply Step. eapply IH. exact H.
      * intros H. apply Step. eapply IH. exact H.
    + intros H. apply Step. eapply IH. exact H.
Qed.

End RegexFacts.

(** X14: when the first pattern of the extractor (line 225) is found in a
    text, the text holds "ActionResult(is_done=True", later
    "extracted_content='", the group, a quote, and later a closing
    bracket; the group is not empty and holds no quote. *)
Theorem pattern_search_sound (text g : string) :
  Regex.search Regex.pattern text = Some g ->
  (exists pre mid tail rest,
      text = (pre ++ "ActionResult(is_done=True" ++ mid
              ++ "extracted_content=" ++ String Regex.quote g
              ++ String Regex.quote tail ++ ")" ++ rest)%string)
  /\ g <> EmptyString
  /\ RegexFacts.all_in (Regex.NotChar Regex.quote) g = true.
Proof.
  intros H. apply RegexFacts.search_sound in H as (pre & s' & rest & -> & M).
  unfold Regex.match_here, Regex.pattern in M. cbn [Regex.run] in M.
  destruct (Regex.skip_lit _ s') as [s1|] eqn:L1; [|discriminate].
  apply RegexFacts.skip_lit_sound in L1. subst s'.
  apply RegexFacts.lazy_star_sound in M as (mid & s2 & -> & _ & M).
  apply RegexFacts.quoted_group_sound in M as (g' & s3 & -> & G & A & M).
  cbn [Regex.run] in M.
  apply RegexFacts.lazy_star_sound in M as (tail & s4 & -> & _ & M).
  destruct (Regex.skip_lit _ s4) as [s5|] eqn:L5; [|discriminate].
  apply RegexFacts.skip_lit_sound in L5. subst s4.
  injection M as -> ->.
  split; [|split; assumption].
  exists pre, mid, tail, rest. reflexivity.
Qed.

Lemma pattern_search_sound_witness :
  Regex.search Regex.pattern
    "[ActionResult(is_done=True, extracted_content='Tweet: hi', x=1)]" = Some "Tweet: hi"
  /\ "Tweet: hi" <> EmptyString
  /\ RegexFacts.all_in (Regex.NotChar Regex.quote) "Tweet: hi" = true.
Proof.
  assert (H : Regex.search Regex.pattern
                "[ActionResult(is_done=True, extracted_content='Tweet: hi', x=1)]"
              = Some "Tweet: hi") by reflexivity.
  split; [exact H|].
  exact (proj2 (pattern_search_sound _ _ H)).
Defined.

(** X15: every text found by the second pattern (line 233) stands in the
    subject between "extracted_content='" and a quote, is not empty and
    holds no quote. *)
Theorem pattern2_findall_sound (text g : string) :
  In g (Regex.findall Regex.pattern2 text) ->
  (exists pre rest,
      text = (pre ++ "extracted_content=" ++ String Regex.quote g
              ++ String Regex.quote rest)%string)
  /\ g <> EmptyString
  /\ RegexFacts.all_in (Regex.NotChar Regex.quote) g = true.
Proof.
  intros H. apply RegexFacts.findall_from_sound in H as (pre & s' & rest & -> & M).
  unfold Regex.match_here, Regex.pattern2 in M.
  apply RegexFacts.quoted_group_sound in M as (g' & s3 & -> & G & A & M).
  injection M as -> ->.
  split; [|split; assumption].
  exists pre, rest. reflexivity.
Qed.

Lemma pattern2_findall_sound_witness :
  In "b c" (Regex.findall Regex.pattern2
              "extracted_content='a' extracted_content='' extracted_content='b c'")
  /\ "b c" <> EmptyString
  /\ RegexFacts.all_in (Regex.NotChar Regex.quote) "b c" = true.
Proof.
  assert (H : In "b c" (Regex.findall Regex.pattern2
                          "extracted_content='a' extracted_content='' extracted_content='b c'"))
    by (vm_compute; right; left; reflexivity).
  split; [exact H|].
  exact (proj2 (pattern2_findall_sound _ _ H)).
Defined.

Module RegexComplete.
Import Regex.

Lemma skip_lit_complete (l s : string) : skip_lit l (l ++ s) = Some s.
Proof.
  induction l as [|a l IH]; [reflexivity|].
  cbn [append skip_lit]. now rewrite Ascii.eqb_refl.
Qed.

(** The greedy repetition takes a whole run of the class when what follows
    starts outside the class and lets the rest of the pattern match. *)
Lemma greedy_star_run {R : Type} (cc : cclass) (k : string -> option R)
      (g : string) (c : ascii) (rest : string) (r : R) :
  RegexFacts.all_in cc g = true -> cc_match cc c = false ->
  k (String c rest) = Some r ->
  greedy_star cc k (g ++ String c rest) = Some r.
Proof.
  intros A M K. induction g as [|x g IH].
  - cbn [append greedy_star]. now rewrite M.
  - cbn [RegexFacts.all_in] in A. apply andb_true_iff in A as [Mx A].
    cbn [append greedy_star]. rewrite Mx, (IH A). reflexivity.
Qed.

Lemma quoted_group_here (g rest : string) :
  g <> EmptyString -> RegexFacts.all_in (NotChar quote) g = true ->
  match_here quoted_group ("extracted_content=" ++ String quote g ++ String quote rest)
  = Some (g, rest).
Proof.
  intros G A. unfold match_here, quoted_group. cbn [run].
  change ("extracted_content=" ++ String quote g ++ String quote rest)%string
    with (("extracted_content=" ++ String quote EmptyString) ++ g ++ String quote rest)%string.
  rewrite skip_lit_complete.
  destruct g as [|x g]; [congruence|].
  cbn [RegexFacts.all_in] in A. apply andb_true_iff in A as [Mx A].
  unfold greedy_plus. cbn [append]. rewrite Mx.
  erewrite greedy_star_run; [reflexivity | exact A | |].
  - reflexivity.
  - cbn [skip_lit]. rewrite Ascii.eqb_refl.
    change (String x (g ++ String quote rest)) with (String x g ++ String quote rest)%string.
    rewrite RegexFacts.take_app. reflexivity.
Qed.

Lemma findall_nil_search (r : regex) (s : string) :
  findall r s = [] -> search r s = None.
Proof.
  unfold findall. induction s as [|c s IH]; cbn [findall_from search].
  - destruct (match_here r EmptyString) as [[g rest]|]; [discriminate|reflexivity].
  - destruct (match_here r (String c s)) as [[g rest]|]; [discriminate|exact IH].
Qed.

Lemma search_finds (r : regex) (pre s : string) (x : string * string) :
  match_here r s = Some x -> search r (pre ++ s) <> None.
Proof.
  intros M. induction pre as [|c pre IH].
  - cbn [append]. destruct s; cbn [search]; rewrite M; destruct x; discriminate.
  - cbn [append search]. destruct (match_here r (String c (pre ++ s))) as [[g rest]|];
      [discriminate | exact IH].
Qed.

End RegexComplete.

(** X16: when a text holds "extracted_content='", a text that is not empty
    and has no quote, and a quote, the second pattern finds at least one
    text in it. *)
Theorem pattern2_findall_complete (pre g rest : string) :
  g <> EmptyString ->
  RegexFacts.all_in (Regex.NotChar Regex.quote) g = true ->
  Regex.findall Regex.pattern2
    (pre ++ "extracted_content=" ++ String Regex.quote g ++ String Regex.quote rest)
  <> [].
Proof.
  intros G A E. apply RegexComplete.findall_nil_search in E.
  revert E. eapply RegexComplete.search_finds.
  apply RegexComplete.quoted_group_here; assumption.
Qed.

Lemma pattern2_findall_complete_witness :
  Regex.findall Regex.pattern2
    ("history: " ++ "extracted_content=" ++ String Regex.quote "hi" ++ String Regex.quote ", x=1")
  <> [].
Proof.
  apply (pattern2_findall_complete "history: " "hi" ", x=1").
  - discriminate.
  - reflexivity.
Defined.

(** ** Requests are independent *)

Lemma extract_step_text_any_world {codec : Codecs} (env : Env)
      (source post_url : string) (w w' : World) :
  fst (extract_step env source post_url w) = fst (extract_step env source post_url w').
Proof.
  rewrite !extract_step_run, !extract_x_run, !extract_post_run.
  destruct (String.eqb source "x"), (key_present env); reflexivity.
Qed.

Lemma query_step_text_any_world {codec : Codecs} (env : Env)
      (post_text note source : string) (w w' : World) :
  fst (query_step env post_text note source w)
  = fst (query_step env post_text note source w').
Proof.
  rewrite !query_step_run, !shape_query_run. destruct (key_present env); reflexivity.
Qed.

Lemma compound_search_text_any_world (env : Env) (query : string) (w w' : World) :
  fst (_compound_search env query w) = fst (_compound_search env query w').
Proof.
  rewrite !compound_search_run. destruct (key_present env); reflexivity.
Qed.

(** X17: the report of a request depends on the request and on the answers
    of the collaborators only: neither the report file nor the calls made
    before change any of its fields. *)
Theorem trigger_report_ignores_world {codec : Codecs} (env : Env) (req : Trigger)
        (w w' : World) :
  fst (trigger env req w) = fst (trigger env req w').
Proof.
  rewrite !trigger_run. cbv zeta. cbn [fst].
  rewrite (extract_step_text_any_world env _ _ w w').
  rewrite (query_step_text_any_world env _ _ _
             (snd (extract_step env (_detect_source (url req)) (url req) w))
             (snd (extract_step env (_detect_source (url req)) (url req) w'))).
  rewrite (compound_search_text_any_world env _
             (snd (query_step env (fst (extract_step env (_detect_source (url req)) (url req) w'))
                     (note req) (_detect_source (url req))
                     (snd (extract_step env (_detect_source (url req)) (url req) w))))
             (snd (query_step env (fst (extract_step env (_detect_source (url req)) (url req) w'))
                     (note req) (_detect_source (url req))
                     (snd (extract_step env (_detect_source (url req)) (url req) w'))))).
  reflexivity.
Qed.

(** ** Blank lines in the report file *)

(** A line with something else than white space. *)
Definition nonblank (line : string) : bool := PyStr.nonempty (PyStr.strip line).

Lemma decode_blank_line {codec : Codecs} (line : string) :
  nonblank line = false -> decode_line (line ++ Store.newline) = [].
Proof.
  unfold nonblank, decode_line. intros B.
  now rewrite StoreFacts.strip_app_newline, B.
Qed.

Lemma decode_lines_nonblank {codec : Codecs} (lines : list string) :
  flat_map decode_line (map (fun l => (l ++ Store.newline)%string) lines)
  = flat_map decode_line (map (fun l => (l ++ Store.newline)%string) (filter nonblank lines)).
Proof.
  induction lines as [|l rest IH]; [reflexivity|].
  cbn [map flat_map filter]. destruct (nonblank l) eqn:B.
  - cbn [map flat_map]. now rewrite IH.
  - now rewrite (decode_blank_line l B), IH.
Qed.

(** X18: lines that are empty or hold only white space are passed over:
    the list of a file is the list of the file without them. *)
Theorem read_reports_ignores_blank_lines {codec : Codecs} (lines : list string)
        (limit : Z) :
  Forall (fun l => StoreFacts.line_free l = true) lines ->
  Store._read_reports (Some (utf8_encode (lines_text Store.newline lines))) limit
  = Store._read_reports
      (Some (utf8_encode (lines_text Store.newline (filter nonblank lines)))) limit.
Proof.
  intros F. cbn [Store._read_reports]. rewrite !utf8_decode_encode.
  assert (F' : Forall (fun l => StoreFacts.line_free l = true) (filter nonblank lines)).
  { apply Forall_forall. intros l Hl. apply filter_In in Hl as [Hl _].
    revert l Hl. now apply Forall_forall. }
  rewrite !readlines_lines_text, !read_loop_flat by auto.
  cbn [app]. now rewrite decode_lines_nonblank.
Qed.

Lemma read_reports_ignores_blank_lines_witness :
  Store._read_reports (codec := SampleCodec.codec)
    (Some (SampleCodec.encode
             (lines_text Store.newline
                [""; SampleCodec.dumps Samples.record1; "   ";
                 SampleCodec.dumps Samples.record2; ""]))) 100
  = Returned [Samples.record2; Samples.record1].
Proof.
  rewrite (read_reports_ignores_blank_lines (codec := SampleCodec.codec)).
  - vm_compute. reflexivity.
  - repeat constructor.
Defined.
